(** * heripo-research-radar: the crawler debugger's fetch cache and the
      Yeongnam Archaeological Society (yngogo) parser

    A shallow embedding of
    - [fetchHtml], the in-memory HTML cache, and the POST handlers of the
      crawler debugger's server, and
    - [parseYngogoList], [getUniqId] and [extractNttSeq]
      (src/parsers/yngogo.parser.ts),
    followed by the properties the specification states about them.

    Strings are Rocq strings: a JavaScript string is given by the bytes of
    its UTF-8 encoding.  The clock, the random generator and the network
    are an environment the program queries; the cache and a log of what
    the program did are the state it threads. *)

From Stdlib Require Import ZArith Ascii String List Lia.
From stdpp Require Import base option list strings gmap pretty.

Local Open Scope string_scope.
Local Open Scope Z_scope.
Local Open Scope list_scope.

(** ** Results, errors and the world *)

(** A JavaScript [Error]: the part the server reads is [message]. *)
Record Error := mkError { message : string }.

Inductive Result (A : Type) :=
| Ok (a : A)
| Throw (e : Error).
Arguments Ok {A} a.
Arguments Throw {A} e.

(** [{ html, timestamp }], the value type of [htmlCache]. *)
Record CacheEntry := mkEntry { html : string; timestamp : Z }.

(** What [fetch(url, init)] is called with. *)
Record Request := mkRequest {
  req_method : string;
  req_url : string;
  req_headers : list (string * string);
  req_body : option (list (string * string))
}.

(** The part of a Fetch [Response] the program reads.  [resp_text] is the
    outcome of [await response.text()]. *)
Record Response := mkResponse {
  status : N;
  statusText : string;
  resp_text : Result string
}.

(** [response.ok], as the Fetch standard defines it: the status is in the
    range 200 to 299. *)
Definition ok (r : Response) : bool :=
  ((200 <=? status r) && (status r <=? 299))%N.

(** What the program did, oldest first: the requests it sent and the calls it
    made through a target's parser functions. *)
Inductive Event :=
| EvFetch (rq : Request)
| EvParseList (targetId page : string)
| EvParseDetail (targetId page : string).

(** The environment: [clock n] is what the [n]-th evaluation of [Date.now()]
    returns, [random n] the [n]-th draw of the random generator, and
    [network n rq] the outcome of sending [rq] after [n] logged events
    ([inl] when [fetch] itself rejects). *)
Record Env := mkEnv {
  clock : nat -> Z;
  random : nat -> nat;
  network : nat -> Request -> Error + Response
}.

Record World := mkWorld {
  htmlCache : gmap string CacheEntry;
  clockReads : nat;
  draws : nat;
  trace : list Event
}.

(** A computation that reads and updates the world and may throw. *)
Definition IO (A : Type) : Type := World -> Result A * World.

Global Instance IO_ret : MRet IO := fun A a w => (Ok a, w).
Global Instance IO_bind : MBind IO := fun A B f m w =>
  match m w with
  | (Ok a, w') => f a w'
  | (Throw e, w') => (Throw e, w')
  end.

Definition throw {A : Type} (e : Error) : IO A := fun w => (Throw e, w).

(** [try { body } catch (error) { handler }]. *)
Definition try_catch {A : Type} (body : IO A) (handler : Error -> IO A) : IO A :=
  fun w =>
    match body w with
    | (Ok a, w') => (Ok a, w')
    | (Throw e, w') => handler e w'
    end.

Definition log (ev : Event) : IO unit := fun w =>
  (Ok tt, mkWorld (htmlCache w) (clockReads w) (draws w) (trace w ++ [ev])).

(** [htmlCache.get], [htmlCache.set], [htmlCache.has], [htmlCache.clear]. *)
Definition cacheGet (url : string) : IO (option CacheEntry) := fun w =>
  (Ok (htmlCache w !! url), w).

Definition cacheSet (url : string) (e : CacheEntry) : IO unit := fun w =>
  (Ok tt, mkWorld (<[url := e]> (htmlCache w)) (clockReads w) (draws w) (trace w)).

Definition cacheHas (url : string) : IO bool := fun w =>
  (Ok (bool_decide (is_Some (htmlCache w !! url))), w).

Definition cacheClear : IO unit := fun w =>
  (Ok tt, mkWorld ∅ (clockReads w) (draws w) (trace w)).

(** The number of requests a trace holds. *)
Definition isFetch (ev : Event) : bool :=
  match ev with EvFetch _ => true | _ => false end.

Definition networkCalls (w : World) : nat :=
  length (List.filter isFetch (trace w)).

(** ** Constants of the server *)

Definition CACHE_TTL : Z := 5 * 60 * 1000.

Definition USER_AGENTS : list string := [
  "Mozilla/5.0 (Windows NT 10.0; Win64; x64) AppleWebKit/537.36 (KHTML, like Gecko) Chrome/125.0.0.0 Safari/537.36";
  "Mozilla/5.0 (Windows NT 10.0; Win64; x64) AppleWebKit/537.36 (KHTML, like Gecko) Chrome/124.0.0.0 Safari/537.36 Edg/124.0.0.0";
  "Mozilla/5.0 (Windows NT 10.0; Win64; x64; rv:126.0) Gecko/20100101 Firefox/126.0";
  "Mozilla/5.0 (Macintosh; Intel Mac OS X 10_15_7) AppleWebKit/537.36 (KHTML, like Gecko) Chrome/125.0.0.0 Safari/537.36";
  "Mozilla/5.0 (Macintosh; Intel Mac OS X 10_15_7) AppleWebKit/605.1.15 (KHTML, like Gecko) Version/17.5 Safari/605.1.15";
  "Mozilla/5.0 (Macintosh; Intel Mac OS X 10.15; rv:126.0) Gecko/20100101 Firefox/126.0";
  "Mozilla/5.0 (X11; Linux x86_64) AppleWebKit/537.36 (KHTML, like Gecko) Chrome/125.0.0.0 Safari/537.36";
  "Mozilla/5.0 (X11; Ubuntu; Linux x86_64; rv:126.0) Gecko/20100101 Firefox/126.0";
  "Mozilla/5.0 (Windows NT 10.0; Win64; x64) AppleWebKit/537.36 (KHTML, like Gecko) Chrome/123.0.0.0 Safari/537.36";
  "Mozilla/5.0 (Macintosh; Intel Mac OS X 10_15_7) AppleWebKit/537.36 (KHTML, like Gecko) Chrome/124.0.0.0 Safari/537.36"
].

Definition ACCEPT : string :=
  "text/html,application/xhtml+xml,application/xml;q=0.9,image/avif,image/webp,image/apng,*/*;q=0.8".

Definition ACCEPT_LANGUAGE : string := "ko-KR,ko;q=0.9,en-US;q=0.8,en;q=0.7".

(** ** The environment's primitives and [fetchHtml] *)

Section Server.

Variable env : Env.

(** [Date.now()]. *)
Definition dateNow : IO Z := fun w =>
  (Ok (clock env (clockReads w)),
   mkWorld (htmlCache w) (S (clockReads w)) (draws w) (trace w)).

(** [Math.floor(Math.random() * n)]: [Math.random()] is below 1, so the
    result is an index below [n]; the environment's draw is reduced below
    [n]. *)
Definition randomIndex (n : nat) : IO nat := fun w =>
  (Ok (random env (draws w) `mod` n)%nat,
   mkWorld (htmlCache w) (clockReads w) (S (draws w)) (trace w)).

(** [USER_AGENTS[Math.floor(Math.random() * USER_AGENTS.length)]]. *)
Definition getRandomUserAgent : IO string :=
  i ← randomIndex (length USER_AGENTS);
  mret (default "undefined" (USER_AGENTS !! i)).

(** [await fetch(url, init)]: the request is logged, then the environment
    answers. *)
Definition fetch (rq : Request) : IO Response := fun w =>
  let w' := mkWorld (htmlCache w) (clockReads w) (draws w) (trace w ++ [EvFetch rq]) in
  match network env (length (trace w)) rq with
  | inl e => (Throw e, w')
  | inr r => (Ok r, w')
  end.

(** [await response.text()]. *)
Definition responseText (r : Response) : IO string := fun w =>
  match resp_text r with
  | Ok s => (Ok s, w)
  | Throw e => (Throw e, w)
  end.

(** The request [fetchHtml] sends for [url] with user agent [ua]. *)
Definition htmlRequest (url ua : string) : Request :=
  mkRequest "GET" url
    [("User-Agent", ua); ("Accept", ACCEPT); ("Accept-Language", ACCEPT_LANGUAGE)]
    None.

(** Lines 57 to 72 of the server: the part of [fetchHtml] after the cache
    test. *)
Definition fetchFresh (url : string) : IO string :=
  ua ← getRandomUserAgent;
  response ← fetch (htmlRequest url ua);
  if negb (ok response) then
    throw (mkError ("HTTP " +:+ pretty (status response) +:+ ": " +:+ statusText response))
  else
    page ← responseText response;
    now ← dateNow;
    _ ← cacheSet url (mkEntry page now);
    mret page.

(** [fetchHtml(url, useCache)]. *)
Definition fetchHtml (url : string) (useCache : bool) : IO string :=
  if useCache then
    cached ← cacheGet url;
    match cached with
    | Some c =>
        now ← dateNow;
        if now - timestamp c <? CACHE_TTL then mret (html c) else fetchFresh url
    | None => fetchFresh url
    end
  else fetchFresh url.

(** The entry [c] is fresh at time [now]. *)
Definition fresh (now : Z) (c : CacheEntry) : Prop := now - timestamp c < CACHE_TTL.

(** The cache serves [url] from world [w]: an entry exists and is fresh at
    the clock's next reading. *)
Definition servedFromCache (url : string) (w : World) : Prop :=
  exists c, htmlCache w !! url = Some c /\ fresh (clock env (clockReads w)) c.

(** The user agent the next request carries. *)
Definition nextUserAgent (w : World) : string :=
  default "undefined" (USER_AGENTS !! (random env (draws w) `mod` length USER_AGENTS)%nat).

End Server.


(** ** Regular expressions, as far as the parser uses them

    The two patterns of the parser are built from literal text, character
    classes, [?], [*] and [+] on a class, and one capture group.  [matchAt] is
    a backtracking matcher in continuation-passing style: greedy operators try
    the longer match first and fall back when the rest of the pattern
    fails. *)

Inductive charset :=
| AnyOf (cs : list ascii)      (* [abc] *)
| NoneOf (cs : list ascii)     (* [^abc] *)
| Digit.                       (* \d *)

Definition isDigit (c : ascii) : bool :=
  ((48 <=? nat_of_ascii c) && (nat_of_ascii c <=? 57))%nat.

Definition accepts (cl : charset) (c : ascii) : bool :=
  match cl with
  | AnyOf cs => existsb (Ascii.eqb c) cs
  | NoneOf cs => negb (existsb (Ascii.eqb c) cs)
  | Digit => isDigit c
  end.

Inductive regex :=
| Chars (lit : string)         (* literal characters *)
| One (cl : charset)           (* one character of a class *)
| Opt (r : regex)              (* r? *)
| Star (cl : charset)          (* cl repeated, zero or more times *)
| Plus (cl : charset)          (* cl+ *)
| Seq (r1 r2 : regex)          (* r1 r2 *)
| Group (r : regex).           (* (r) *)

(** [s] without the prefix [p], when [s] starts with [p]. *)
Fixpoint stripPrefix (p s : string) : option string :=
  match p, s with
  | EmptyString, _ => Some s
  | String a p', String b s' => if Ascii.eqb a b then stripPrefix p' s' else None
  | String _ _, EmptyString => None
  end.

(** The part of [s] in front of its suffix [rest]. *)
Definition consumed (s rest : string) : string :=
  substring 0 (String.length s - String.length rest) s.

Section Matcher.

Context {R : Type}.

(** Greedy repetition of [cl]: as many characters as possible, giving them
    back one at a time while the continuation fails. *)
Fixpoint star (cl : charset) (s : string) (k : string -> option R) : option R :=
  match s with
  | String c s' =>
      if accepts cl c then
        match star cl s' k with
        | Some m => Some m
        | None => k s
        end
      else k s
  | EmptyString => k s
  end.

End Matcher.

(** [matchAt r s caps k]: match [r] at the start of [s]; [caps] are the groups
    captured so far, [k] matches the rest of the pattern. *)
Fixpoint matchAt (r : regex) (s : string) (caps : list string)
    (k : string -> list string -> option (list string)) : option (list string) :=
  match r with
  | Chars lit =>
      match stripPrefix lit s with
      | Some s' => k s' caps
      | None => None
      end
  | One cl =>
      match s with
      | String c s' => if accepts cl c then k s' caps else None
      | EmptyString => None
      end
  | Opt r' =>
      match matchAt r' s caps k with
      | Some m => Some m
      | None => k s caps
      end
  | Star cl => star cl s (fun s' => k s' caps)
  | Plus cl =>
      match s with
      | String c s' => if accepts cl c then star cl s' (fun s'' => k s'' caps) else None
      | EmptyString => None
      end
  | Seq r1 r2 => matchAt r1 s caps (fun s' caps' => matchAt r2 s' caps' k)
  | Group r' => matchAt r' s caps (fun s' caps' => k s' (caps' ++ [consumed s s']))
  end.

(** [s.match(r)] for a pattern without the [g] flag: the leftmost match; the
    result holds the capture groups, group 1 first. *)
Fixpoint jsMatch (r : regex) (s : string) : option (list string) :=
  match matchAt r s [] (fun _ caps => Some caps) with
  | Some caps => Some caps
  | None =>
      match s with
      | String _ s' => jsMatch r s'
      | EmptyString => None
      end
  end.

(** Group 1 of a match result, the empty string when there is no match. *)
Definition group1 (m : option (list string)) : string :=
  match m with
  | Some (g :: _) => g
  | _ => ""
  end.

Definition quote : ascii := "'"%char.
Definition dquote : ascii := "034"%char.

(** The pattern of [getUniqId]: the text fnView, an opening parenthesis and
    a quote; group 1, the longest run of characters other than a quote; a
    closing quote. *)
Definition fnViewPattern : regex :=
  Seq (Chars "fnView('") (Seq (Group (Star (NoneOf [quote]))) (Chars "'")).

(** The pattern of [extractNttSeq]: the text nttSeq; an equals sign or a
    colon; an optional single or double quote; group 1, one or more digits. *)
Definition nttSeqPattern : regex :=
  Seq (Chars "nttSeq")
    (Seq (One (AnyOf ["="%char; ":"%char]))
       (Seq (Opt (One (AnyOf [quote; dquote]))) (Group (Plus Digit)))).

(** Every character of [s] satisfies [p]. *)
Fixpoint allChars (p : ascii -> bool) (s : string) : bool :=
  match s with
  | EmptyString => true
  | String c s' => p c && allChars p s'
  end.

(** [s] does not start with a digit. *)
Definition noLeadingDigit (s : string) : bool :=
  match s with
  | String c _ => negb (isDigit c)
  | EmptyString => true
  end.

Definition quoteFree (s : string) : bool :=
  allChars (fun c => negb (Ascii.eqb c quote)) s.

(** What the patterns look for, said without the matcher: [s] starts with a
    call of fnView whose first argument is quoted; [s] starts with the
    parameter nttSeq, an equals sign or a colon, an optional quote and a
    digit. *)
Definition fnViewCallAt (s : string) : Prop :=
  exists id rest, s = "fnView('" +:+ id +:+ "'" +:+ rest.

Definition nttSeqAt (s : string) : Prop :=
  exists sep q d rest,
    s = "nttSeq" +:+ String sep (q +:+ String d rest) /\
    (sep = "="%char \/ sep = ":"%char) /\
    (q = "" \/ q = String quote "" \/ q = String dquote "") /\
    isDigit d = true.

(** [P] holds somewhere in [s]. *)
Definition occursIn (P : string -> Prop) (s : string) : Prop :=
  exists pre rest, s = pre +:+ rest /\ P rest.

(** [P] holds nowhere in [pre +:+ tail] before [tail]. *)
Definition notBefore (P : string -> Prop) (pre tail : string) : Prop :=
  forall pre1 pre2, pre = pre1 +:+ pre2 -> pre2 <> "" -> ~ P (pre2 +:+ tail).

(** A check of [notBefore] that computes: no suffix of [pre], put in front of
    [tail], matches. *)
Fixpoint noMatchBefore (r : regex) (pre tail : string) : bool :=
  match pre with
  | EmptyString => true
  | String _ pre' =>
      match matchAt r (pre +:+ tail) [] (fun _ caps => Some caps) with
      | Some _ => false
      | None => noMatchBefore r pre' tail
      end
  end.

(** [extractNttSeq(html)]. *)
Definition extractNttSeq (page : string) : string :=
  group1 (jsMatch nttSeqPattern page).

(** ** The document and cheerio selections

    A parsed document is a forest of text and element nodes (comments and
    other node kinds play no part in the selections below).  A selection is a
    list of elements in document order. *)

#[warnings="-register-all"]
Inductive node :=
| TextNode (data : string)
| Element (name : string) (attribs : list (string * string)) (children : list node).

Definition isTag (tag : string) (n : node) : bool :=
  match n with
  | Element name _ _ => String.eqb name tag
  | TextNode _ => false
  end.

(** The value of attribute [key] of [n]. *)
Definition attribute (key : string) (n : node) : option string :=
  match n with
  | Element _ attribs _ => snd <$> List.find (fun kv => String.eqb (fst kv) key) attribs
  | TextNode _ => None
  end.

(** *** White space, as the class of the regular expressions has it

    A string stands for a JavaScript string through its UTF-8 encoding.  The
    white space class accepts the ASCII characters 9 to 13 and 32, and the
    Unicode characters U+00A0, U+1680, U+2000 to U+200A, U+2028, U+2029,
    U+202F, U+205F, U+3000 and U+FEFF, which take two or three bytes. *)

Definition utf8 (codes : list nat) : string :=
  string_of_list_ascii (List.map ascii_of_nat codes).

Definition whiteSpace : list string :=
  List.map utf8
    [[9]; [10]; [11]; [12]; [13]; [32];
     [194; 160];
     [225; 154; 128];
     [226; 128; 128]; [226; 128; 129]; [226; 128; 130]; [226; 128; 131];
     [226; 128; 132]; [226; 128; 133]; [226; 128; 134]; [226; 128; 135];
     [226; 128; 136]; [226; 128; 137]; [226; 128; 138];
     [226; 128; 168]; [226; 128; 169]; [226; 128; 175];
     [226; 129; 159];
     [227; 128; 128];
     [239; 187; 191]]%nat.

(** What is left of [s] behind a white space character at its start: one
    text at most, none when [s] starts with no such character. *)
Definition afterSpace (s : string) : list string :=
  omap (fun sp => stripPrefix sp s) whiteSpace.

Definition startsWithSpace (s : string) : bool :=
  negb (length (afterSpace s) =? 0)%nat.

Fixpoint containsSpace (s : string) : bool :=
  startsWithSpace s ||
  match s with
  | String _ s' => containsSpace s'
  | EmptyString => false
  end.

(** The class test of the selector engine: the pattern made of a start of
    text or a white space character, the name, and an end of text or a white
    space character, looked for in the value [v] of the class attribute.
    [nameHere] is the name and what follows it at the start of [v];
    [nameBehindSpace] looks behind every white space character of [v]. *)
Definition nameHere (cls v : string) : bool :=
  match stripPrefix cls v with
  | Some rest => String.eqb rest "" || startsWithSpace rest
  | None => false
  end.

Fixpoint nameBehindSpace (cls v : string) : bool :=
  existsb (nameHere cls) (afterSpace v) ||
  match v with
  | String _ v' => nameBehindSpace cls v'
  | EmptyString => false
  end.

(** [n] has class [cls].  A name with white space in it is the class of no
    element. *)
Definition hasClass (cls : string) (n : node) : bool :=
  match attribute "class" n with
  | Some v => negb (containsSpace cls) && (nameHere cls v || nameBehindSpace cls v)
  | None => false
  end.

(** The elements below [n], in document order. *)
Fixpoint descendants (n : node) : list node :=
  match n with
  | TextNode _ => []
  | Element _ _ cs =>
      flat_map (fun c => match c with
                         | TextNode _ => []
                         | Element _ _ _ => c :: descendants c
                         end) cs
  end.

(** The text of [n]: its text nodes, concatenated. *)
Fixpoint textOf (n : node) : string :=
  match n with
  | TextNode data => data
  | Element _ _ cs => String.concat "" (List.map textOf cs)
  end.

(** [$('.basic-table01 tr')] below [n]: every [tr] element that has an
    ancestor of class [basic-table01]; [inside] tells whether an ancestor of
    [n] has the class. *)
Fixpoint tableRowsIn (inside : bool) (n : node) : list node :=
  match n with
  | TextNode _ => []
  | Element _ _ cs =>
      (if inside && isTag "tr" n then [n] else []) ++
      flat_map (tableRowsIn (inside || hasClass "basic-table01" n)) cs
  end.

Definition tableRows (doc : list node) : list node :=
  flat_map (tableRowsIn false) doc.

(** [sel.find(tag)], for a selection of at most one element (the parser
    calls it on nothing else), where no element can be found twice. *)
Definition find (tag : string) (sel : list node) : list node :=
  flat_map (fun n => List.filter (isTag tag) (descendants n)) sel.

(** [sel.eq(i)]. *)
Definition eq_ (i : nat) (sel : list node) : list node :=
  match sel !! i with
  | Some n => [n]
  | None => []
  end.

(** [sel.attr(key)]: the attribute of the first element. *)
Definition attr (key : string) (sel : list node) : option string :=
  match sel with
  | n :: _ => attribute key n
  | [] => None
  end.

(** [sel.text()]. *)
Definition text (sel : list node) : string :=
  String.concat "" (List.map textOf sel).

(** [getUniqId(element)]. *)
Definition getUniqId (element : list node) : string :=
  group1 (jsMatch fnViewPattern (default "" (attr "onclick" element))).

(** ** The yngogo list parser *)

(** A JavaScript [Date]: its time value in milliseconds, [None] for an
    invalid date. *)
Record JsDate := mkDate { timeValue : option Z }.

(** [DateType] of the newsletter kit; the parser uses one member. *)
Inductive DateType := REGISTERED.

(** [ParsedTargetListItem]. *)
Record ParsedTargetListItem := mkItem {
  uniqId : string;
  title : string;
  date : JsDate;
  detailUrl : string;
  dateType : DateType
}.

(** [ParsedTargetDetail]. *)
Record ParsedTargetDetail := mkDetail {
  detailContent : string;
  hasAttachedFile : bool;
  hasAttachedImage : bool
}.





Definition LIST_API_URL : string :=
  "http://www.yngogo.or.kr/module/ntt/unity/selectNttListAjax.ink".
Definition BASE_URL : string := "http://www.yngogo.or.kr".

Section Parser.

Variable env : Env.

(** The collaborators of the parser that are not part of it: [cleanUrl] and
    [getDate] of ./utils, [String.prototype.trim], and the HTML parser behind
    [cheerio.load], which gives the top-level nodes of the document. *)
Variable cleanUrl : string -> string.
Variable getDate : string -> JsDate.
Variable trim : string -> string.
Variable load : string -> list node.

(** The request [parseYngogoList] sends to the list endpoint. *)
Definition listRequest (ua menuSeq bbsSeq sitecntntsSeq : string) : Request :=
  mkRequest "POST" LIST_API_URL
    [("Content-Type", "application/x-www-form-urlencoded"); ("User-Agent", ua)]
    (Some [("siteSeq", "32000001030"); ("bbsSeq", bbsSeq); ("pageIndex", "1");
           ("menuSeq", menuSeq); ("pageMode", "B"); ("sitecntntsSeq", sitecntntsSeq);
           ("tabTyCode", "dataManage"); ("mngrAt", "N"); ("searchCondition", "");
           ("searchKeyword", ""); ("nttSeq", "")]).

(** The URL built on line 89, before [cleanUrl]. *)
Definition rawDetailUrl (menuSeq bbsSeq sitecntntsSeq uniqId : string) : string :=
  BASE_URL +:+ "/subList/" +:+ menuSeq +:+ "?pmode=detail&nttSeq=" +:+ uniqId
    +:+ "&bbsSeq=" +:+ bbsSeq +:+ "&sitecntntsSeq=" +:+ sitecntntsSeq.

(** The body of the [each] callback (lines 82 to 101): [posts] is the array
    the callback pushes to, [element] the row. *)
Definition eachRow (menuSeq bbsSeq sitecntntsSeq : string)
    (posts : list ParsedTargetListItem) (element : node) : list ParsedTargetListItem :=
  let columns := find "td" [element] in
  if (length columns =? 0)%nat then posts
  else
    let titleElement := find "a" (eq_ 1 columns) in
    let uniqId := getUniqId titleElement in
    let detailUrl := rawDetailUrl menuSeq bbsSeq sitecntntsSeq uniqId in
    let title := trim (text titleElement) in
    let date := getDate (trim (text (eq_ 3 columns))) in
    posts ++ [mkItem uniqId title date (cleanUrl detailUrl) REGISTERED].

(** Lines 78 to 104: the items of a loaded document. *)
Definition parseRows (menuSeq bbsSeq sitecntntsSeq : string) (doc : list node)
    : list ParsedTargetListItem :=
  fold_left (eachRow menuSeq bbsSeq sitecntntsSeq) (tableRows doc) [].

(** The rows the callback does not skip, and what it reads from one. *)
Definition dataRow (element : node) : bool :=
  negb (length (find "td" [element]) =? 0)%nat.

Definition titleElementOf (element : node) : list node :=
  find "a" (eq_ 1 (find "td" [element])).

Definition rowUniqId (element : node) : string :=
  getUniqId (titleElementOf element).

(** The item the callback pushes for a row it does not skip. *)
Definition rowItem (menuSeq bbsSeq sitecntntsSeq : string) (element : node)
    : ParsedTargetListItem :=
  mkItem (rowUniqId element)
    (trim (text (titleElementOf element)))
    (getDate (trim (text (eq_ 3 (find "td" [element])))))
    (cleanUrl (rawDetailUrl menuSeq bbsSeq sitecntntsSeq (rowUniqId element)))
    REGISTERED.

(** [parseYngogoList(_html, menuSeq, bbsSeq, sitecntntsSeq)]. *)
Definition parseYngogoList (_html menuSeq bbsSeq sitecntntsSeq : string)
    : IO (list ParsedTargetListItem) :=
  ua ← getRandomUserAgent env;
  response ← fetch env (listRequest ua menuSeq bbsSeq sitecntntsSeq);
  page ← responseText response;
  mret (parseRows menuSeq bbsSeq sitecntntsSeq (load page)).

(** The list endpoint answered [r] to the request sent from [w]. *)
Definition answered (menuSeq bbsSeq sitecntntsSeq : string) (w : World) (r : Response) : Prop :=
  network env (length (trace w))
    (listRequest (nextUserAgent env w) menuSeq bbsSeq sitecntntsSeq) = inr r.

End Parser.

(** ** The debug server's handlers *)

(** A field of a request body, as far as the handlers distinguish values. *)
Inductive jsval :=
| JUndefined
| JNull
| JBool (b : bool)
| JStr (s : string).

(** [id === v] for a string [id]. *)
Definition strictEq (id : string) (v : jsval) : bool :=
  match v with
  | JStr s => String.eqb id s
  | _ => false
  end.

(** A value inside a template literal. *)
Definition toTemplate (v : jsval) : string :=
  match v with
  | JUndefined => "undefined"
  | JNull => "null"
  | JBool true => "true"
  | JBool false => "false"
  | JStr s => s
  end.

(** A target of the registry, and a group of targets
    (src/config/crawling-targets). *)
Record TargetDefinition := mkTarget {
  target_id : string;
  target_name : string;
  target_url : string;
  parseList : string -> IO (list ParsedTargetListItem);
  parseDetail : string -> IO ParsedTargetDetail
}.

Record TargetGroup := mkGroup {
  group_id : string;
  group_name : string;
  targets : list TargetDefinition
}.

(** The body of a POST to /api/parse-list and to /api/parse-detail.  The
    identifiers are any value; a URL is a string when present; [skipCache] is
    read for its truth value only. *)
Record ParseListBody := mkListBody {
  groupId : jsval;
  targetId : jsval;
  customUrl : option string;
  skipCache : bool
}.

Record ParseDetailBody := mkDetailBody {
  d_groupId : jsval;
  d_targetId : jsval;
  d_detailUrl : option string;
  d_skipCache : bool
}.

Record Timing := mkTiming { t_fetch : Z; t_parse : Z; t_total : Z }.

(** What a handler sends back: [res.status(code).json({ error })], the two
    success bodies, and the body of the [catch] branch (status 500). *)
Inductive Reply :=
| ErrorReply (code : N) (error : string)
| ListReply (url page : string) (items : list ParsedTargetListItem)
    (timing : Timing) (cached : bool)
| DetailReply (url page : string) (article : ParsedTargetDetail)
    (timing : Timing) (cached : bool)
| FailureReply (error : string).

(** A falsy URL field: absent or empty. *)
Definition truthyUrl (u : option string) : option string :=
  match u with
  | Some s => if String.eqb s "" then None else Some s
  | None => None
  end.

Section Handlers.

Variable env : Env.
Variable crawlingTargetGroups : list TargetGroup.

(** [app.post('/api/parse-list', ...)]. *)
Definition parseListHandler (body : ParseListBody) : IO Reply :=
  try_catch
    match List.find (fun g => strictEq (group_id g) (groupId body)) crawlingTargetGroups with
    | None => mret (ErrorReply 404 ("Group not found: " +:+ toTemplate (groupId body)))
    | Some group =>
        match List.find (fun t => strictEq (target_id t) (targetId body)) (targets group) with
        | None => mret (ErrorReply 404 ("Target not found: " +:+ toTemplate (targetId body)))
        | Some target =>
            let url := default (target_url target) (truthyUrl (customUrl body)) in
            startTime ← dateNow env;
            page ← fetchHtml env url (negb (skipCache body));
            fetchEnd ← dateNow env;
            let fetchTime := fetchEnd - startTime in
            parseStartTime ← dateNow env;
            _ ← log (EvParseList (target_id target) page);
            items ← parseList target page;
            parseEnd ← dateNow env;
            let parseTime := parseEnd - parseStartTime in
            cached ← (if negb (skipCache body) then cacheHas url else mret false);
            mret (ListReply url page items
                    (mkTiming fetchTime parseTime (fetchTime + parseTime)) cached)
        end
    end
    (fun error => mret (FailureReply (message error))).

(** [app.post('/api/parse-detail', ...)]. *)
Definition parseDetailHandler (body : ParseDetailBody) : IO Reply :=
  try_catch
    match List.find (fun g => strictEq (group_id g) (d_groupId body)) crawlingTargetGroups with
    | None => mret (ErrorReply 404 ("Group not found: " +:+ toTemplate (d_groupId body)))
    | Some group =>
        match List.find (fun t => strictEq (target_id t) (d_targetId body)) (targets group) with
        | None => mret (ErrorReply 404 ("Target not found: " +:+ toTemplate (d_targetId body)))
        | Some target =>
            match truthyUrl (d_detailUrl body) with
            | None => mret (ErrorReply 400 "detailUrl is required")
            | Some detailUrl =>
                startTime ← dateNow env;
                page ← fetchHtml env detailUrl (negb (d_skipCache body));
                fetchEnd ← dateNow env;
                let fetchTime := fetchEnd - startTime in
                parseStartTime ← dateNow env;
                _ ← log (EvParseDetail (target_id target) page);
                article ← parseDetail target page;
                parseEnd ← dateNow env;
                let parseTime := parseEnd - parseStartTime in
                cached ← (if negb (d_skipCache body) then cacheHas detailUrl else mret false);
                mret (DetailReply detailUrl page article
                        (mkTiming fetchTime parseTime (fetchTime + parseTime)) cached)
            end
        end
    end
    (fun error => mret (FailureReply (message error))).

(** [app.post('/api/clear-cache', ...)] and [app.get('/api/cache-stats', ...)]:
    the number of entries and the keys, as a set (the order in which the keys
    were inserted is not kept). *)
Definition clearCacheHandler : IO unit := cacheClear.

Definition cacheStatsHandler : IO (nat * gset string) := fun w =>
  (Ok (size (htmlCache w), dom (htmlCache w)), w).

End Handlers.

(** ** Worlds between the steps of a handler *)

(** The world after one evaluation of [Date.now()], and after logging a
    parser call. *)
Definition tick (w : World) : World :=
  mkWorld (htmlCache w) (S (clockReads w)) (draws w) (trace w).

Definition logged (ev : Event) (w : World) : World :=
  mkWorld (htmlCache w) (clockReads w) (draws w) (trace w ++ [ev]).

(** The URL /api/parse-list fetches: [customUrl || target.url]. *)
Definition listUrl (body : ParseListBody) (target : TargetDefinition) : string :=
  default (target_url target) (truthyUrl (customUrl body)).

(** ** The yngogo detail parser *)

Definition DETAIL_API_URL : string :=
  "http://www.yngogo.or.kr/module/ntt/unity/selectNttDetailAjax.ink".

(** Every element of the document, in document order. *)
Definition elements (doc : list node) : list node :=
  flat_map (fun n => match n with
                     | TextNode _ => []
                     | Element _ _ _ => n :: descendants n
                     end) doc.

(** [$(selector)] on the whole document, for a selector that tests one
    element: a class or an id. *)
Definition select (p : node -> bool) (doc : list node) : list node :=
  List.filter p (elements doc).

Definition hasId (i : string) (n : node) : bool :=
  match attribute "id" n with
  | Some v => String.eqb v i
  | None => false
  end.

Section DetailParser.

Variable env : Env.

(** The collaborators: the HTML parser behind [cheerio.load], the serializer
    behind [.html()], which writes the children of an element as markup, and
    [new TurndownService().turndown]. *)
Variable load : string -> list node.
Variable innerHtml : list node -> string.
Variable turndown : string -> string.

(** [sel.html()]: the markup inside the first element, nothing for an empty
    selection. *)
Definition htmlOf (sel : list node) : option string :=
  match sel with
  | Element _ _ cs :: _ => Some (innerHtml cs)
  | _ => None
  end.

(** The request [parseYngogoDetail] sends to the detail endpoint. *)
Definition detailRequest (ua menuSeq bbsSeq nttSeq sitecntntsSeq : string) : Request :=
  mkRequest "POST" DETAIL_API_URL
    [("Content-Type", "application/x-www-form-urlencoded"); ("User-Agent", ua)]
    (Some [("siteSeq", "32000001030"); ("bbsSeq", bbsSeq); ("nttSeq", nttSeq);
           ("pageIndex", "1"); ("ordrSe", "D"); ("searchCnd", "frstRegistPnttm");
           ("checkNttSeq", ""); ("menuSeq", menuSeq); ("mngrAt", "N");
           ("parntsNttSeq", ""); ("secretAt", ""); ("searchAt", "");
           ("sitecntntsSeq", sitecntntsSeq); ("cmntUseAt", "N");
           ("atchFilePosblAt", "Y"); ("atchFilePosblCo", "3"); ("listCount", "10");
           ("searchCondition", "1"); ("searchKeyword", "")]).

(** Lines 149 to 157: the record read from a loaded document.  [find] may
    list an image twice when content elements are nested; the test is on the
    list being non-empty, which that does not change. *)
Definition detailOf (doc : list node) : ParsedTargetDetail :=
  let content := select (hasClass "conM_txt") doc in
  mkDetail (turndown (default "" (htmlOf content)))
    (0 <? length (select (hasId "atchFile_div") doc))%nat
    (0 <? length (find "img" content))%nat.

(** [parseYngogoDetail(_html, menuSeq, bbsSeq, nttSeq, sitecntntsSeq)]. *)
Definition parseYngogoDetail (_html menuSeq bbsSeq nttSeq sitecntntsSeq : string)
    : IO ParsedTargetDetail :=
  ua ← getRandomUserAgent env;
  response ← fetch env (detailRequest ua menuSeq bbsSeq nttSeq sitecntntsSeq);
  page ← responseText response;
  mret (detailOf (load page)).

End DetailParser.

(** ** Sample data

    An environment, worlds, listing fragments and a registry, on which the
    statements below are run. *)

Module Sample.

Definition downUrl : string := "http://down.example/".
Definition pageUrl : string := "http://www.yngogo.or.kr/subList/32000001112".

(** The clock advances one second per reading; the service at [downUrl]
    answers 503, every other address 200 with a page. *)
Definition env : Env :=
  mkEnv (fun n => 1000 * Z.of_nat n)
        (fun n => n)
        (fun _ rq =>
           if String.eqb (req_url rq) downUrl
           then inr (mkResponse 503 "Service Unavailable" (Ok "unavailable"))
           else inr (mkResponse 200 "OK" (Ok "<html>fresh</html>"))).

(** An empty cache; a cache with a fresh entry; a cache with a stale entry,
    six minutes old at the first clock reading. *)
Definition w0 : World := mkWorld ∅ 0 0 [].

Definition wFresh : World :=
  mkWorld {[ pageUrl := mkEntry "<html>cached</html>" (-1000) ]} 0 0 [].

Definition wStale : World :=
  mkWorld {[ downUrl := mkEntry "<html>old</html>" (-360000) ]} 0 0 [].

Definition cell (tag : string) (content : list node) : node := Element tag [] content.

Definition headerRow : node :=
  Element "tr" []
    [cell "th" [TextNode "No"]; cell "th" [TextNode "Title"];
     cell "th" [TextNode "Writer"]; cell "th" [TextNode "Date"]].

(** A data row whose title link calls fnView with [handler] as inline click
    handler. *)
Definition linkRow (no handler title day : string) : node :=
  Element "tr" []
    [cell "td" [TextNode no];
     cell "td" [Element "a" [("href", "#none"); ("onclick", handler)] [TextNode title]];
     cell "td" [TextNode "admin"];
     cell "td" [TextNode day]].

Definition row1 : node :=
  linkRow "3" "fnView('1005200644', 'admin', '', '','')" "Autumn conference" "2025-10-02".
Definition row2 : node :=
  linkRow "2" "fnView('1005200643', 'admin', '', '','')" "Call for papers" "2025-09-18".
Definition row3 : node :=
  linkRow "1" "fnView('1005200642', 'admin', '', '','')" "Field school" "2025-09-01".

(** A data row whose link has a handler without a call of fnView. *)
Definition rowNoId : node := linkRow "4" "return false;" "Notice" "2025-10-05".

Definition table (rows : list node) : list node :=
  [Element "div" [("class", "board")]
     [Element "table" [("class", "tbl basic-table01")]
        [Element "tbody" [] rows]]].

(** One header-only row and three data rows; two rows with the same
    identifier; a row without identifier. *)
Definition listing : list node := table [headerRow; row1; row2; row3].
Definition listingTwice : list node := table [headerRow; row3; row3].
Definition listingNoId : list node := table [headerRow; rowNoId].

(** Collaborators: a [cleanUrl] that changes nothing, a filter that keeps
    nothing of a query, a [getDate] that gives an invalid date and a [trim]
    that changes nothing. *)
Definition cleanUrlSame (url : string) : string := url.
Definition getDateInvalid (day : string) : JsDate := mkDate None.
Definition trimSame (s : string) : string := s.

Definition parseListing (doc : list node) : IO (list ParsedTargetListItem) :=
  parseYngogoList env cleanUrlSame getDateInvalid trimSame (fun _ => doc)
    "" "32000001112" "1030" "32000001056".

(** The item of a row of the sample listings. *)
Definition itemOf (element : node) : ParsedTargetListItem :=
  rowItem cleanUrlSame getDateInvalid trimSame "32000001112" "1030" "32000001056" element.

(** A registry of one group with one target. *)
Definition noticeTarget : TargetDefinition :=
  mkTarget "yngogo-notice" "Yeongnam Archaeological Society" pageUrl
    (fun page => parseYngogoList env cleanUrlSame getDateInvalid trimSame
                   (fun _ => listing) page "32000001112" "1030" "32000001056")
    (fun _ => mret (mkDetail "" false false)).

Definition society : TargetGroup :=
  mkGroup "academic-society" "Academic societies" [noticeTarget].

Definition registry : list TargetGroup := [society].

(** The list endpoint's answer in the sample environment. *)
Definition listAnswer : Response := mkResponse 200 "OK" (Ok "<html>fresh</html>").

End Sample.

(** ** More sample data *)

Module Sample2.

Import Sample.

(** Requests to the sample registry: for the known target, for the known
    target at the address that is down, and for the detail route without a
    URL. *)
Definition listBody : ParseListBody :=
  mkListBody (JStr "academic-society") (JStr "yngogo-notice") None false.

Definition listBodyDown : ParseListBody :=
  mkListBody (JStr "academic-society") (JStr "yngogo-notice") (Some downUrl) false.

Definition detailBodyNoUrl : ParseDetailBody :=
  mkDetailBody (JStr "academic-society") (JStr "yngogo-notice") (Some "") false.

(** The document of an error page: no table in it. *)
Definition errorPage : list node :=
  [Element "html" []
     [Element "body" [] [Element "p" [("class", "msg")] [TextNode "Service error"]]]].

End Sample2.
(** ** Properties of the fetch cache *)

Section FetchCache.

Variable env : Env.

Ltac io_unfold :=
  unfold fetchHtml, fetchFresh, getRandomUserAgent, randomIndex, fetch,
    responseText, dateNow, cacheGet, cacheSet, throw, mbind, IO_bind, mret, IO_ret.

Lemma user_agent_in_pool (n : nat) :
  In (default "undefined" (USER_AGENTS !! (n `mod` length USER_AGENTS)%nat)) USER_AGENTS.
Proof.
  assert (Hlt : (n `mod` length USER_AGENTS < length USER_AGENTS)%nat)
    by (apply Nat.mod_upper_bound; discriminate).
  destruct (lookup_lt_is_Some_2 USER_AGENTS _ Hlt) as [ua Hua].
  rewrite Hua. apply list_elem_of_In. eapply list_elem_of_lookup_2, Hua.
Qed.

(** What [fetchFresh] does, by the network's answer. *)
Lemma fetchFresh_run (url : string) (w : World) :
  let rq := htmlRequest url (nextUserAgent env w) in
  let w1 := mkWorld (htmlCache w) (clockReads w) (S (draws w)) (trace w ++ [EvFetch rq]) in
  fetchFresh env url w =
    match network env (length (trace w)) rq with
    | inl e => (Throw e, w1)
    | inr r =>
        if ok r then
          match resp_text r with
          | Ok page =>
              (Ok page,
               mkWorld (<[url := mkEntry page (clock env (clockReads w))]> (htmlCache w))
                 (S (clockReads w)) (S (draws w)) (trace w ++ [EvFetch rq]))
          | Throw e => (Throw e, w1)
          end
        else
          (Throw (mkError ("HTTP " +:+ pretty (status r) +:+ ": " +:+ statusText r)), w1)
    end.
Proof.
  io_unfold. unfold nextUserAgent. simpl.
  destruct (network env _ _) as [e | r]; [reflexivity |].
  destruct (ok r); simpl; [| reflexivity].
  destruct (resp_text r); reflexivity.
Qed.

(** What [fetchHtml] does, by the cache test. *)
Lemma fetchHtml_run (url : string) (useCache : bool) (w : World) :
  fetchHtml env url useCache w =
    if useCache then
      match htmlCache w !! url with
      | Some c =>
          let w1 := mkWorld (htmlCache w) (S (clockReads w)) (draws w) (trace w) in
          if clock env (clockReads w) - timestamp c <? CACHE_TTL
          then (Ok (html c), w1) else fetchFresh env url w1
      | None => fetchFresh env url w
      end
    else fetchFresh env url w.
Proof.
  unfold fetchHtml. destruct useCache; [| reflexivity].
  unfold mbind, IO_bind, cacheGet, dateNow. destruct (htmlCache w !! url); [| reflexivity].
  simpl. destruct (_ <? _); reflexivity.
Qed.

Lemma fetchFresh_trace (url : string) (w : World) :
  trace (fetchFresh env url w).2 = trace w ++ [EvFetch (htmlRequest url (nextUserAgent env w))].
Proof.
  rewrite fetchFresh_run. simpl.
  destruct (network env _ _) as [e | r]; [reflexivity |].
  destruct (ok r); [| reflexivity]. destruct (resp_text r); reflexivity.
Qed.

Lemma fetchFresh_trace_at (url : string) (w : World) (n : nat) :
  trace (fetchFresh env url (mkWorld (htmlCache w) n (draws w) (trace w))).2 =
    trace w ++ [EvFetch (htmlRequest url (nextUserAgent env w))].
Proof. apply (fetchFresh_trace url (mkWorld (htmlCache w) n (draws w) (trace w))). Qed.

Lemma nextUserAgent_in_pool (w : World) : In (nextUserAgent env w) USER_AGENTS.
Proof. apply user_agent_in_pool. Qed.

Lemma fetchFresh_stores (url page : string) (w w1 : World) :
  fetchFresh env url w = (Ok page, w1) ->
  htmlCache w1 !! url = Some (mkEntry page (clock env (clockReads w))) /\
  clockReads w1 = S (clockReads w).
Proof.
  rewrite fetchFresh_run. simpl.
  destruct (network env _ _) as [e | r]; [discriminate |].
  destruct (ok r); [| discriminate]. destruct (resp_text r); [| discriminate].
  intros [= <- <-]. simpl. split; [apply lookup_insert_eq | reflexivity].
Qed.

Lemma fetchFresh_error_keeps_cache (url : string) (e : Error) (w w1 : World) :
  fetchFresh env url w = (Throw e, w1) -> htmlCache w1 = htmlCache w.
Proof.
  rewrite fetchFresh_run. simpl.
  destruct (network env _ _) as [e' | r]; [by intros [= <- <-] |].
  destruct (ok r); [| by intros [= <- <-]].
  destruct (resp_text r); [discriminate | by intros [= <- <-]].
Qed.

Lemma networkCalls_snoc_fetch (w w' : World) (rq : Request) :
  trace w' = trace w ++ [EvFetch rq] -> networkCalls w' = S (networkCalls w).
Proof.
  unfold networkCalls. intros ->. rewrite List.filter_app, length_app. simpl. lia.
Qed.

Lemma fresh_ltb (now : Z) (c : CacheEntry) :
  (now - timestamp c <? CACHE_TTL) = true <-> fresh now c.
Proof. unfold fresh. apply Z.ltb_lt. Qed.

Lemma not_served_no_hit (url : string) (w : World) (c : CacheEntry) :
  ~ servedFromCache env url w -> htmlCache w !! url = Some c ->
  (clock env (clockReads w) - timestamp c <? CACHE_TTL) = false.
Proof.
  intros Hns Hc. destruct (_ <? _) eqn:Hlt; [| reflexivity].
  exfalso. apply Hns. exists c. split; [exact Hc | by apply fresh_ltb].
Qed.

(** A call that is not served from the cache runs [fetchFresh], from the
    world [w] itself or from [w] after one clock reading. *)
Lemma fetchHtml_miss (url : string) (useCache : bool) (w : World) :
  ~ (useCache = true /\ servedFromCache env url w) ->
  exists n, (n = clockReads w \/ n = S (clockReads w)) /\
    fetchHtml env url useCache w =
      fetchFresh env url (mkWorld (htmlCache w) n (draws w) (trace w)).
Proof.
  intros Hmiss. rewrite fetchHtml_run. destruct w as [cache reads dr tr]; simpl in *.
  destruct useCache; [| by exists reads; split; [left |]].
  destruct (cache !! url) as [c |] eqn:Hc; [| by exists reads; split; [left |]].
  assert (Hno := not_served_no_hit url (mkWorld cache reads dr tr) c).
  simpl in Hno. rewrite Hno; [| tauto | exact Hc].
  exists (S reads). split; [by right | reflexivity].
Qed.

Lemma served_or_not (url : string) (useCache : bool) (w : World) :
  (useCache = true /\ servedFromCache env url w) \/
  ~ (useCache = true /\ servedFromCache env url w).
Proof.
  destruct useCache; [| right; by intros [[=] _]].
  destruct (htmlCache w !! url) as [c |] eqn:Hc.
  - destruct (Z.ltb_spec (clock env (clockReads w) - timestamp c) CACHE_TTL) as [Hlt | Hge].
    + left. split; [reflexivity |]. by exists c.
    + right. intros [_ (c' & Hc' & Hfresh)]. unfold fresh in Hfresh.
      rewrite Hc in Hc'. injection Hc' as <-. lia.
  - right. intros [_ (c' & Hc' & _)]. by rewrite Hc in Hc'.
Qed.

Lemma snoc_not_same {A : Type} (l : list A) (x : A) : l ++ [x] <> l.
Proof.
  intros Heq. apply (f_equal (@length A)) in Heq. rewrite length_app in Heq.
  simpl in Heq. lia.
Qed.

(** C1. [fetchHtml(url, true)] answers from the cache, sending nothing,
    exactly when an entry for [url] exists with [now - timestamp < CACHE_TTL]
    (five minutes); every other call sends one request.  So a second
    cache-enabled fetch of the same URL, made from the state the first one
    left and inside the entry's TTL window, returns the content of the first
    and sends nothing: the two calls send exactly one request when the first
    one had to go to the network.  Once the TTL has elapsed the entry is stale
    and a request is sent. *)
Theorem fetchHtml_cache_rule :
  (forall (url : string) (useCache : bool) (w : World),
      trace (fetchHtml env url useCache w).2 = trace w <->
      useCache = true /\ servedFromCache env url w) /\
  (forall (url : string) (w : World) (c : CacheEntry),
      htmlCache w !! url = Some c -> fresh (clock env (clockReads w)) c ->
      exists w1, fetchHtml env url true w = (Ok (html c), w1) /\
        trace w1 = trace w /\ htmlCache w1 = htmlCache w) /\
  (forall (url : string) (useCache : bool) (w : World),
      ~ (useCache = true /\ servedFromCache env url w) ->
      exists ua, In ua USER_AGENTS /\
        trace (fetchHtml env url useCache w).2 = trace w ++ [EvFetch (htmlRequest url ua)]) /\
  (forall (url page : string) (w w1 : World),
      fetchHtml env url true w = (Ok page, w1) ->
      servedFromCache env url w1 ->
      exists w2, fetchHtml env url true w1 = (Ok page, w2) /\
        trace w2 = trace w1 /\
        (~ servedFromCache env url w -> networkCalls w2 = S (networkCalls w))) /\
  (forall (url : string) (w : World) (c : CacheEntry),
      htmlCache w !! url = Some c ->
      CACHE_TTL <= clock env (clockReads w) - timestamp c ->
      networkCalls (fetchHtml env url true w).2 = S (networkCalls w)).
Proof.
  assert (Hhit : forall (url : string) (w : World) (c : CacheEntry),
             htmlCache w !! url = Some c -> fresh (clock env (clockReads w)) c ->
             fetchHtml env url true w =
               (Ok (html c), mkWorld (htmlCache w) (S (clockReads w)) (draws w) (trace w))).
  { intros url w c Hc Hfresh. rewrite fetchHtml_run, Hc. simpl.
    apply fresh_ltb in Hfresh. by rewrite Hfresh. }
  split; [| split; [| split; [| split]]].
  - intros url useCache w. split.
    + intros Hsame. destruct (served_or_not url useCache w) as [Hserved | Hmiss];
        [exact Hserved | exfalso].
      destruct (fetchHtml_miss url useCache w Hmiss) as (n & _ & Heq).
      rewrite Heq, fetchFresh_trace_at in Hsame. by apply snoc_not_same in Hsame.
    + intros [-> (c & Hc & Hfresh)]. by rewrite (Hhit url w c Hc Hfresh).
  - intros url w c Hc Hfresh. rewrite (Hhit url w c Hc Hfresh). eauto.
  - intros url useCache w Hmiss.
    destruct (fetchHtml_miss url useCache w Hmiss) as (n & _ & ->).
    exists (nextUserAgent env w).
    split; [apply nextUserAgent_in_pool | apply fetchFresh_trace_at].
  - intros url page w w1 Hfirst (c1 & Hc1 & Hfresh1).
    assert (Hpage : html c1 = page).
    { rewrite fetchHtml_run in Hfirst.
      destruct (htmlCache w !! url) as [c |] eqn:Hc.
      - simpl in Hfirst. destruct (_ <? _).
        + injection Hfirst as <- <-. simpl in Hc1. congruence.
        + apply fetchFresh_stores in Hfirst as [Hst _].
          rewrite Hc1 in Hst. by injection Hst as ->.
      - apply fetchFresh_stores in Hfirst as [Hst _].
        rewrite Hc1 in Hst. by injection Hst as ->. }
    exists (mkWorld (htmlCache w1) (S (clockReads w1)) (draws w1) (trace w1)).
    split; [| split; [reflexivity |]].
    + by rewrite (Hhit url w1 c1 Hc1 Hfresh1), Hpage.
    + intros Hmiss. unfold networkCalls at 1. simpl. fold (networkCalls w1).
      destruct (fetchHtml_miss url true w) as (n & _ & Heq); [tauto |].
      eapply networkCalls_snoc_fetch.
      replace w1 with (fetchHtml env url true w).2 by (by rewrite Hfirst).
      rewrite Heq. apply fetchFresh_trace_at.
  - intros url w c Hc Hstale.
    destruct (fetchHtml_miss url true w) as (n & _ & Heq).
    + intros (_ & c' & Hc' & Hfresh). unfold fresh in Hfresh.
      rewrite Hc in Hc'. injection Hc' as <-. lia.
    + eapply networkCalls_snoc_fetch. rewrite Heq. apply fetchFresh_trace_at.
Qed.

(** C2. When [fetchHtml] goes to the network it sends one request for [url]
    whose headers are a User-Agent taken from [USER_AGENTS], [Accept] and
    [Accept-Language].  A response whose status is not 2xx makes the call
    throw an error carrying the response's status and status text.  On a 2xx
    response whose body reads as [page], the entry for [url] is written (or
    replaced) with [page] and the call's latest clock reading, and [page] is
    returned. *)
Theorem fetchHtml_network_outcome (url : string) (useCache : bool) (w : World) :
  ~ (useCache = true /\ servedFromCache env url w) ->
  let ua := nextUserAgent env w in
  let rq := htmlRequest url ua in
  let out := fetchHtml env url useCache w in
  In ua USER_AGENTS /\
  req_url rq = url /\
  req_headers rq =
    [("User-Agent", ua); ("Accept", ACCEPT); ("Accept-Language", ACCEPT_LANGUAGE)] /\
  trace out.2 = trace w ++ [EvFetch rq] /\
  (forall r : Response,
      network env (length (trace w)) rq = inr r ->
      (status r < 200 \/ 299 < status r)%N ->
      out.1 = Throw (mkError ("HTTP " +:+ pretty (status r) +:+ ": " +:+ statusText r))) /\
  (forall (r : Response) (page : string),
      network env (length (trace w)) rq = inr r ->
      (200 <= status r <= 299)%N ->
      resp_text r = Ok page ->
      exists n, clockReads out.2 = S n /\
        out.1 = Ok page /\
        htmlCache out.2 = <[url := mkEntry page (clock env n)]> (htmlCache w)).
Proof.
  intros Hmiss ua rq out.
  destruct (fetchHtml_miss url useCache w Hmiss) as (n & _ & Heq).
  subst out. rewrite Heq. clear Heq.
  split; [apply nextUserAgent_in_pool |].
  split; [reflexivity |]. split; [reflexivity |].
  split; [apply fetchFresh_trace_at |].
  rewrite fetchFresh_run. simpl.
  change (nextUserAgent env (mkWorld (htmlCache w) n (draws w) (trace w))) with ua.
  fold rq. split.
  - intros r Hnet Hstatus. rewrite Hnet.
    assert (Hok : ok r = false).
    { unfold ok. apply andb_false_iff.
      destruct Hstatus; [left; apply N.leb_gt | right; apply N.leb_gt]; lia. }
    rewrite Hok. reflexivity.
  - intros r page Hnet Hstatus Hbody. rewrite Hnet.
    assert (Hok : ok r = true).
    { unfold ok. apply andb_true_iff. split; apply N.leb_le; lia. }
    rewrite Hok, Hbody. simpl. eauto.
Qed.

(** C9. A call of [fetchHtml] that fails, whatever the reason (the request is
    rejected, the status is not 2xx, the body cannot be read), leaves the
    cache map as it was: nothing is added, removed or overwritten, the entry
    of the requested URL included. *)
Theorem fetchHtml_failure_keeps_cache
    (url : string) (useCache : bool) (w w1 : World) (e : Error) :
  fetchHtml env url useCache w = (Throw e, w1) ->
  htmlCache w1 = htmlCache w.
Proof.
  rewrite fetchHtml_run. intros Hrun.
  destruct useCache; [| by apply fetchFresh_error_keeps_cache in Hrun].
  destruct (htmlCache w !! url) as [c |];
    [| by apply fetchFresh_error_keeps_cache in Hrun].
  simpl in Hrun. destruct (_ <? _); [discriminate |].
  by apply fetchFresh_error_keeps_cache in Hrun.
Qed.

End FetchCache.

(** ** More on the fetch cache: frame, key set, forced refresh, clearing *)

Section FetchCacheMore.

Variable env : Env.

(** What [fetchFresh] leaves in the cache: the map as it was, or the map
    with the entry of [url] written. *)
Lemma fetchFresh_cache (url : string) (w : World) :
  htmlCache (fetchFresh env url w).2 = htmlCache w \/
  exists page,
    (fetchFresh env url w).1 = Ok page /\
    htmlCache (fetchFresh env url w).2 =
      <[url := mkEntry page (clock env (clockReads w))]> (htmlCache w).
Proof.
  rewrite fetchFresh_run. simpl.
  destruct (network env _ _) as [e | r]; [by left |].
  destruct (ok r); [| by left].
  destruct (resp_text r) as [page | e]; [right; by exists page | by left].
Qed.

(** The same for [fetchHtml]; the timestamp is one of the call's clock
    readings. *)
Lemma fetchHtml_cache (url : string) (useCache : bool) (w : World) :
  htmlCache (fetchHtml env url useCache w).2 = htmlCache w \/
  exists page now,
    (fetchHtml env url useCache w).1 = Ok page /\
    htmlCache (fetchHtml env url useCache w).2 = <[url := mkEntry page now]> (htmlCache w).
Proof.
  rewrite fetchHtml_run.
  assert (Hfresh : forall n,
    let w1 := mkWorld (htmlCache w) n (draws w) (trace w) in
    htmlCache (fetchFresh env url w1).2 = htmlCache w \/
    exists page now, (fetchFresh env url w1).1 = Ok page /\
      htmlCache (fetchFresh env url w1).2 = <[url := mkEntry page now]> (htmlCache w)).
  { intros n w1. destruct (fetchFresh_cache url w1) as [Hsame | (page & Hok & Hset)];
      [by left | right; by exists page, (clock env n)]. }
  destruct useCache.
  - destruct (htmlCache w !! url) as [c |].
    + simpl. destruct (_ <? _); [by left | apply Hfresh].
    + destruct w as [cache reads dr tr]. apply (Hfresh reads).
  - destruct w as [cache reads dr tr]. apply (Hfresh reads).
Qed.

(** X1. Whatever a call of [fetchHtml] for [url] does (hit, refetch,
    failure), the entries of all other URLs are what they were. *)
Theorem fetchHtml_other_urls_untouched
    (url other : string) (useCache : bool) (w : World) :
  other <> url ->
  htmlCache (fetchHtml env url useCache w).2 !! other = htmlCache w !! other.
Proof.
  intros Hne.
  destruct (fetchHtml_cache url useCache w) as [-> | (page & now & _ & ->)];
    [reflexivity |].
  by rewrite lookup_insert_ne.
Qed.

(** After a successful [fetchHtml] the entry of [url] holds the page
    returned. *)
Lemma fetchHtml_result_cached (url page : string) (useCache : bool) (w w1 : World) :
  fetchHtml env url useCache w = (Ok page, w1) ->
  exists c, htmlCache w1 !! url = Some c /\ html c = page.
Proof.
  intros Hrun. rewrite fetchHtml_run in Hrun. destruct useCache.
  - destruct (htmlCache w !! url) as [c |] eqn:Hc.
    + simpl in Hrun. destruct (_ <? _).
      * injection Hrun as <- <-. by exists c.
      * apply fetchFresh_stores in Hrun as [Hst _]. eauto.
    + apply fetchFresh_stores in Hrun as [Hst _]. eauto.
  - apply fetchFresh_stores in Hrun as [Hst _]. eauto.
Qed.

(** X2. After a successful [fetchHtml] (from the cache or from the network)
    the cache holds an entry for [url] whose content is the page returned,
    and the key set is the old one plus [url]: a call adds at most one
    entry. *)
Theorem fetchHtml_result_is_cached
    (url page : string) (useCache : bool) (w w1 : World) :
  fetchHtml env url useCache w = (Ok page, w1) ->
  (exists c, htmlCache w1 !! url = Some c /\ html c = page) /\
  dom (htmlCache w1) = {[url]} ∪ dom (htmlCache w) /\
  (size (htmlCache w1) <= S (size (htmlCache w)))%nat.
Proof.
  intros Hrun.
  pose proof (fetchHtml_result_cached url page useCache w w1 Hrun) as Hentry.
  split; [exact Hentry |].
  destruct Hentry as (c & Hc & _).
  assert (Hw1 : w1 = (fetchHtml env url useCache w).2) by (by rewrite Hrun).
  destruct (fetchHtml_cache url useCache w) as [Hsame | (page' & now & _ & Hset)].
  - rewrite <- Hw1 in Hsame. rewrite Hsame in Hc. rewrite Hsame. split; [| lia].
    apply elem_of_dom_2 in Hc. apply set_eq. intros k.
    rewrite elem_of_union, elem_of_singleton. split; [tauto | by intros [-> | ?]].
  - rewrite <- Hw1 in Hset. rewrite Hset. split; [apply dom_insert_L |].
    destruct (htmlCache w !! url) as [c0 |] eqn:Hold.
    + rewrite map_size_insert_Some by eauto. lia.
    + by rewrite map_size_insert_None.
Qed.

(** X3. [fetchHtml(url, false)] sends a request whatever the cache holds, a
    fresh entry included.  When it succeeds the entry of [url] is replaced by
    the new page with the time of the call, so that a cache-enabled fetch that
    follows inside the TTL returns the new page without a request. *)
Theorem fetchHtml_forced_refresh (url : string) (w : World) :
  networkCalls (fetchHtml env url false w).2 = S (networkCalls w) /\
  forall (page : string) (w1 : World),
    fetchHtml env url false w = (Ok page, w1) ->
    htmlCache w1 = <[url := mkEntry page (clock env (clockReads w))]> (htmlCache w) /\
    (clock env (clockReads w1) - clock env (clockReads w) < CACHE_TTL ->
     exists w2, fetchHtml env url true w1 = (Ok page, w2) /\ trace w2 = trace w1).
Proof.
  split.
  - eapply networkCalls_snoc_fetch. apply fetchFresh_trace.
  - intros page w1 Hrun. change (fetchFresh env url w = (Ok page, w1)) in Hrun.
    assert (Hcache : htmlCache w1 =
              <[url := mkEntry page (clock env (clockReads w))]> (htmlCache w)).
    { rewrite fetchFresh_run in Hrun. simpl in Hrun.
      destruct (network env _ _) as [e | r]; [discriminate |].
      destruct (ok r); [| discriminate].
      destruct (resp_text r); [| discriminate]. by injection Hrun as <- <-. }
    split; [exact Hcache |].
    intros Hwindow. rewrite fetchHtml_run, Hcache, lookup_insert_eq. simpl.
    apply Z.ltb_lt in Hwindow. rewrite Hwindow. eauto.
Qed.

(** X4. After /api/clear-cache the statistics report no entry and no key,
    and every fetch, cache-enabled or not, goes to the network. *)
Theorem clear_cache_forgets (w : World) :
  (cacheStatsHandler (clearCacheHandler w).2).1 = Ok (0%nat, ∅) /\
  trace (clearCacheHandler w).2 = trace w /\
  forall (url : string) (useCache : bool),
    networkCalls (fetchHtml env url useCache (clearCacheHandler w).2).2
      = S (networkCalls w).
Proof.
  split; [reflexivity |]. split; [reflexivity |].
  intros url useCache.
  destruct (fetchHtml_miss env url useCache (clearCacheHandler w).2) as (n & _ & Heq).
  - intros [_ (c & Hc & _)]. simpl in Hc. by rewrite lookup_empty in Hc.
  - rewrite Heq. eapply networkCalls_snoc_fetch.
    rewrite (fetchFresh_trace_at env). reflexivity.
Qed.

End FetchCacheMore.

(** ** Properties of the identifier patterns *)

Section Patterns.

(** The continuation that ends a pattern. *)
Local Abbreviation done_ := (fun (_ : string) (caps : list string) => Some caps).

Lemma append_cons (x : ascii) (a b : string) : String x a +:+ b = String x (a +:+ b).
Proof. reflexivity. Qed.

Lemma append_nil_l (b : string) : "" +:+ b = b.
Proof. reflexivity. Qed.

Lemma append_assoc (a b c : string) : (a +:+ b) +:+ c = a +:+ (b +:+ c).
Proof.
  induction a as [| x a IH]; [reflexivity |]. by rewrite !append_cons, IH.
Qed.


Lemma length_append (a b : string) :
  String.length (a +:+ b) = (String.length a + String.length b)%nat.
Proof.
  induction a as [| x a IH]; [reflexivity |]. rewrite append_cons. simpl. by rewrite IH.
Qed.

Lemma substring_prefix (a b : string) :
  substring 0 (String.length a) (a +:+ b) = a.
Proof.
  induction a as [| x a IH]; [by destruct b |].
  rewrite append_cons. simpl. by rewrite IH.
Qed.

Lemma consumed_append (a b : string) : consumed (a +:+ b) b = a.
Proof.
  unfold consumed. rewrite length_append.
  replace (String.length a + String.length b - String.length b)%nat
    with (String.length a) by lia.
  apply substring_prefix.
Qed.

Lemma stripPrefix_Some (p s rest : string) :
  stripPrefix p s = Some rest <-> s = p +:+ rest.
Proof.
  revert s. induction p as [| a p IH]; intros s; simpl.
  - rewrite append_nil_l. split; [by intros [= ->] | by intros ->].
  - rewrite append_cons. destruct s as [| b s]; [by split |].
    destruct (Ascii.eqb_spec a b) as [-> | Hne].
    + rewrite IH. split; [by intros -> | by intros [= ->]].
    + split; [discriminate | intros [= Hab _]; by destruct Hne].
Qed.

Lemma stripPrefix_append (p rest : string) : stripPrefix p (p +:+ rest) = Some rest.
Proof. by apply stripPrefix_Some. Qed.

(** When greedy repetition succeeds, it has split the text in two and the
    continuation accepted the second part. *)
Lemma star_Some {R : Type} (cl : charset) (s : string) (k : string -> option R) (m : R) :
  star cl s k = Some m ->
  exists a b, s = a +:+ b /\ allChars (accepts cl) a = true /\ k b = Some m.
Proof.
  induction s as [| c s IH]; simpl.
  - intros Hk. by exists "", "".
  - destruct (accepts cl c) eqn:Hc; [| intros Hk; by exists "", (String c s)].
    destruct (star cl s k) as [m' |] eqn:Hstar.
    + intros [= ->]. destruct (IH eq_refl) as (a & b & -> & Ha & Hk).
      exists (String c a), b. simpl. by rewrite Hc, Ha.
    + intros Hk. by exists "", (String c s).
Qed.

(** Greedy repetition runs over a run of accepted characters that ends at a
    refused one, when the continuation accepts what follows the run. *)
Lemma star_run {R : Type} (cl : charset) (a b : string) (k : string -> option R) (m : R) :
  allChars (accepts cl) a = true ->
  (match b with String c _ => accepts cl c = false | EmptyString => True end) ->
  k b = Some m ->
  star cl (a +:+ b) k = Some m.
Proof.
  intros Ha Hb Hk. induction a as [| c a IH]; [rewrite append_nil_l | rewrite append_cons]; simpl.
  - destruct b as [| c b]; simpl; [exact Hk | by rewrite Hb].
  - simpl in Ha. apply andb_true_iff in Ha as [Hc Ha]. by rewrite Hc, (IH Ha).
Qed.

(** [jsMatch] finds a match that starts at some position of the text. *)
Lemma jsMatch_Some (r : regex) (s : string) (caps : list string) :
  jsMatch r s = Some caps ->
  exists pre rest, s = pre +:+ rest /\ matchAt r rest [] done_ = Some caps.
Proof.
  induction s as [| c s IH]; simpl.
  - destruct (matchAt r "" [] _) eqn:Hm; [| discriminate].
    intros [= ->]. by exists "", "".
  - destruct (matchAt r (String c s) [] _) eqn:Hm.
    + intros [= ->]. by exists "", (String c s).
    + intros Hs. destruct (IH Hs) as (pre & rest & -> & Hrest).
      by exists (String c pre), rest.
Qed.

(** A match at the very start of the text is the one [jsMatch] returns. *)
Lemma jsMatch_head (r : regex) (s : string) (caps : list string) :
  matchAt r s [] done_ = Some caps -> jsMatch r s = Some caps.
Proof. intros Hm. destruct s; simpl; by rewrite Hm. Qed.

(** The two patterns, with the matcher unfolded. *)
Lemma matchAt_fnView (s : string) :
  matchAt fnViewPattern s [] done_ =
    match stripPrefix "fnView('" s with
    | Some s1 =>
        star (NoneOf [quote]) s1 (fun s2 =>
          match stripPrefix "'" s2 with
          | Some _ => Some [consumed s1 s2]
          | None => None
          end)
    | None => None
    end.
Proof. reflexivity. Qed.

Lemma matchAt_digits (s : string) (caps : list string) :
  matchAt (Group (Plus Digit)) s caps done_ =
    match s with
    | String d s1 =>
        if isDigit d then star Digit s1 (fun s2 => Some (caps ++ [consumed s s2]))
        else None
    | EmptyString => None
    end.
Proof. destruct s; reflexivity. Qed.

Lemma matchAt_nttSeq (s : string) :
  matchAt nttSeqPattern s [] done_ =
    match stripPrefix "nttSeq" s with
    | Some (String sep s1) =>
        if accepts (AnyOf ["="%char; ":"%char]) sep then
          match
            match s1 with
            | String q s2 =>
                if accepts (AnyOf [quote; dquote]) q
                then matchAt (Group (Plus Digit)) s2 [] done_ else None
            | EmptyString => None
            end
          with
          | Some m => Some m
          | None => matchAt (Group (Plus Digit)) s1 [] done_
          end
        else None
    | _ => None
    end.
Proof.
  unfold nttSeqPattern. cbn [matchAt].
  destruct (stripPrefix "nttSeq" s) as [[| sep s1] |]; reflexivity.
Qed.

(** [jsMatch] finds nothing exactly when no position of the text matches. *)
Lemma jsMatch_None (r : regex) (s : string) :
  jsMatch r s = None <->
  forall pre rest, s = pre +:+ rest -> matchAt r rest [] done_ = None.
Proof.
  split.
  - induction s as [| c s IH]; simpl.
    + destruct (matchAt r "" [] _) eqn:Hm; [discriminate |].
      intros _ [| x pre] rest; [rewrite append_nil_l | rewrite append_cons];
        [by intros <- | discriminate].
    + destruct (matchAt r (String c s) [] _) eqn:Hm; [discriminate |].
      intros Hs [| x pre] rest; [rewrite append_nil_l | rewrite append_cons].
      * by intros <-.
      * intros [= _ ->]. by eapply IH.
  - intros Hnone. destruct (jsMatch r s) as [caps |] eqn:Hs; [| reflexivity].
    apply jsMatch_Some in Hs as (pre & rest & Heq & Hm).
    by rewrite (Hnone pre rest Heq) in Hm.
Qed.

(** [jsMatch] returns the match at [tail] when no earlier position matches. *)
Lemma jsMatch_first (r : regex) (pre tail : string) (caps : list string) :
  matchAt r tail [] done_ = Some caps ->
  (forall pre1 pre2, pre = pre1 +:+ pre2 -> pre2 <> "" ->
     matchAt r (pre2 +:+ tail) [] done_ = None) ->
  jsMatch r (pre +:+ tail) = Some caps.
Proof.
  intros Htail. induction pre as [| c pre IH]; intros Hbefore.
  - rewrite append_nil_l. by apply jsMatch_head.
  - rewrite append_cons. simpl. rewrite <- append_cons.
    rewrite (Hbefore "" (String c pre)); [| reflexivity | discriminate].
    apply IH. intros pre1 pre2 -> Hne.
    by apply (Hbefore (String c pre1) pre2).
Qed.

Lemma accepts_AnyOf2 (a b c : ascii) :
  accepts (AnyOf [a; b]) c = true <-> c = a \/ c = b.
Proof.
  simpl. rewrite orb_false_r, orb_true_iff, !Ascii.eqb_eq. tauto.
Qed.

Lemma accepts_not_quote (c : ascii) :
  accepts (NoneOf [quote]) c = negb (Ascii.eqb c quote).
Proof. simpl. by rewrite orb_false_r. Qed.

Lemma quoteFree_accepts (s : string) :
  allChars (accepts (NoneOf [quote])) s = quoteFree s.
Proof.
  unfold quoteFree. induction s as [| c s IH]; [reflexivity |].
  simpl allChars. by rewrite IH, orb_false_r.
Qed.

(** A text with a quote in it splits at its first quote. *)
Lemma first_quote (id rest : string) :
  exists a b, id +:+ "'" +:+ rest = a +:+ "'" +:+ b /\ quoteFree a = true.
Proof.
  induction id as [| c id (a & b & Heq & Ha)].
  - by exists "", rest.
  - destruct (Ascii.eqb c quote) eqn:Hc.
    + apply Ascii.eqb_eq in Hc as ->. by exists "", (id +:+ "'" +:+ rest).
    + exists (String c a), b. rewrite (append_cons c id), (append_cons c a), Heq.
      split; [reflexivity |]. unfold quoteFree in *. simpl. by rewrite Hc, Ha.
Qed.

(** The identifier pattern at a call whose first argument has no quote in
    it: group 1 is the argument. *)
Lemma fnView_at_value (id rest : string) :
  quoteFree id = true ->
  matchAt fnViewPattern ("fnView('" +:+ id +:+ "'" +:+ rest) [] done_ = Some [id].
Proof.
  intros Hid. rewrite matchAt_fnView, stripPrefix_append.
  apply star_run.
  - by rewrite quoteFree_accepts.
  - reflexivity.
  - rewrite stripPrefix_append. by rewrite consumed_append.
Qed.

(** The identifier pattern matches at [s] exactly when [s] starts with a call
    of fnView with a quoted first argument. *)
Lemma fnView_at_iff (s : string) :
  (exists caps, matchAt fnViewPattern s [] done_ = Some caps) <-> fnViewCallAt s.
Proof.
  split.
  - intros [caps Hm]. rewrite matchAt_fnView in Hm.
    destruct (stripPrefix "fnView('" s) as [s1 |] eqn:Hp; [| discriminate].
    apply stripPrefix_Some in Hp as ->.
    apply star_Some in Hm as (a & b & -> & _ & Hk).
    destruct (stripPrefix "'" b) as [b' |] eqn:Hq; [| discriminate].
    apply stripPrefix_Some in Hq as ->. by exists a, b'.
  - intros (id & rest & ->).
    destruct (first_quote id rest) as (a & b & -> & Ha).
    exists [a]. by apply fnView_at_value.
Qed.

(** The digits of the sequence pattern: a run of digits that [rest] does not
    continue is captured whole. *)
Lemma digits_value (d : ascii) (ds rest : string) (caps : list string) :
  isDigit d = true -> allChars isDigit ds = true -> noLeadingDigit rest = true ->
  matchAt (Group (Plus Digit)) (String d (ds +:+ rest)) caps done_ =
    Some (caps ++ [String d ds]).
Proof.
  intros Hd Hds Hrest. rewrite matchAt_digits, Hd.
  apply star_run; [exact Hds | |].
  - destruct rest as [| c rest]; [exact I |]. simpl in *. by destruct (isDigit c).
  - by rewrite <- append_cons, consumed_append.
Qed.

Lemma digits_Some (s : string) (caps m : list string) :
  matchAt (Group (Plus Digit)) s caps done_ = Some m ->
  exists d rest, s = String d rest /\ isDigit d = true.
Proof.
  rewrite matchAt_digits. destruct s as [| d rest]; [discriminate |].
  destruct (isDigit d) eqn:Hd; [| discriminate]. by exists d, rest.
Qed.

Lemma digits_is_Some (d : ascii) (rest : string) (caps : list string) :
  isDigit d = true ->
  exists m, matchAt (Group (Plus Digit)) (String d rest) caps done_ = Some m.
Proof.
  intros Hd. rewrite matchAt_digits, Hd.
  assert (Hstar : forall s (k : string -> option (list string)),
             (forall s2, is_Some (k s2)) -> is_Some (star Digit s k)).
  { intros s k Hk. induction s as [| c s IH]; simpl; [apply Hk |].
    destruct (isDigit c); [| apply Hk].
    destruct IH as [m ->]. by exists m. }
  destruct (Hstar rest (fun s2 => Some (caps ++ [consumed (String d rest) s2])))
    as [m Hm]; [by eexists | by exists m].
Qed.

Lemma digit_not_quote (d : ascii) :
  isDigit d = true -> accepts (AnyOf [quote; dquote]) d = false.
Proof.
  intros Hd. destruct (accepts _ d) eqn:Hq; [| reflexivity].
  apply accepts_AnyOf2 in Hq as [-> | ->]; discriminate.
Qed.

Lemma separator_accepted (sep : ascii) :
  sep = "="%char \/ sep = ":"%char -> accepts (AnyOf ["="%char; ":"%char]) sep = true.
Proof. by intros [-> | ->]. Qed.

(** The sequence pattern at the parameter: group 1 is the run of digits,
    whichever of the three quoting styles is used. *)
Lemma nttSeq_at_value (sep d : ascii) (q ds rest : string) :
  sep = "="%char \/ sep = ":"%char ->
  q = "" \/ q = String quote "" \/ q = String dquote "" ->
  isDigit d = true -> allChars isDigit ds = true -> noLeadingDigit rest = true ->
  matchAt nttSeqPattern ("nttSeq" +:+ String sep (q +:+ String d (ds +:+ rest))) [] done_ =
    Some [String d ds].
Proof.
  intros Hsep Hq Hd Hds Hrest.
  rewrite matchAt_nttSeq, stripPrefix_append, (separator_accepted sep Hsep).
  pose proof (digits_value d ds rest [] Hd Hds Hrest) as Hdigits.
  destruct Hq as [-> | [-> | ->]].
  - rewrite append_nil_l, (digit_not_quote d Hd). exact Hdigits.
  - rewrite append_cons, append_nil_l.
    change (accepts (AnyOf [quote; dquote]) quote) with true. cbv iota.
    by rewrite Hdigits.
  - rewrite append_cons, append_nil_l.
    change (accepts (AnyOf [quote; dquote]) dquote) with true. cbv iota.
    by rewrite Hdigits.
Qed.

(** The sequence pattern matches at [s] exactly when [s] starts with the
    parameter, a separator, an optional quote and a digit. *)
Lemma nttSeq_at_iff (s : string) :
  (exists caps, matchAt nttSeqPattern s [] done_ = Some caps) <-> nttSeqAt s.
Proof.
  split.
  - intros [caps Hm]. rewrite matchAt_nttSeq in Hm.
    destruct (stripPrefix "nttSeq" s) as [[| sep s1] |] eqn:Hp; try discriminate.
    apply stripPrefix_Some in Hp as ->.
    destruct (accepts _ sep) eqn:Hsep; [| discriminate].
    apply accepts_AnyOf2 in Hsep.
    destruct s1 as [| q s2].
    { by apply digits_Some in Hm as (? & ? & ? & _). }
    destruct (accepts (AnyOf [quote; dquote]) q) eqn:Hq.
    + destruct (matchAt (Group (Plus Digit)) s2 [] _) as [m |] eqn:Hdigits.
      * apply digits_Some in Hdigits as (d & rest & -> & Hd).
        apply accepts_AnyOf2 in Hq.
        exists sep, (String q ""), d, rest. repeat split; try done.
        destruct Hq as [-> | ->]; auto.
      * apply digits_Some in Hm as (d & rest & [= -> ->] & Hd).
        exists sep, "", d, rest. repeat split; auto.
    + apply digits_Some in Hm as (d & rest & [= -> ->] & Hd).
      exists sep, "", d, rest. repeat split; auto.
  - intros (sep & q & d & rest & -> & Hsep & Hq & Hd).
    rewrite matchAt_nttSeq, stripPrefix_append, (separator_accepted sep Hsep).
    destruct (digits_is_Some d rest [] Hd) as [m Hm].
    destruct Hq as [-> | [-> | ->]].
    + rewrite append_nil_l, (digit_not_quote d Hd). by exists m.
    + rewrite append_cons, append_nil_l.
      change (accepts (AnyOf [quote; dquote]) quote) with true. cbv iota.
      rewrite Hm. by exists m.
    + rewrite append_cons, append_nil_l.
      change (accepts (AnyOf [quote; dquote]) dquote) with true. cbv iota.
      rewrite Hm. by exists m.
Qed.

(** From the matcher to the text and back, for any pattern whose matches
    [P] describes. *)
Lemma no_occurrence_no_match (r : regex) (P : string -> Prop) (s : string) :
  (forall t, (exists caps, matchAt r t [] done_ = Some caps) <-> P t) ->
  jsMatch r s = None <-> ~ occursIn P s.
Proof.
  intros HP. rewrite jsMatch_None. split.
  - intros Hnone (pre & rest & Heq & Hrest).
    apply HP in Hrest as [caps Hm]. by rewrite (Hnone pre rest Heq) in Hm.
  - intros Hno pre rest Heq.
    destruct (matchAt r rest [] _) as [caps |] eqn:Hm; [| reflexivity].
    exfalso. apply Hno. exists pre, rest. split; [exact Heq |].
    apply HP. by exists caps.
Qed.

Lemma first_occurrence_match (r : regex) (P : string -> Prop)
    (pre tail : string) (caps : list string) :
  (forall t, (exists caps, matchAt r t [] done_ = Some caps) <-> P t) ->
  matchAt r tail [] done_ = Some caps ->
  notBefore P pre tail ->
  jsMatch r (pre +:+ tail) = Some caps.
Proof.
  intros HP Htail Hbefore. apply jsMatch_first; [exact Htail |].
  intros pre1 pre2 Heq Hne.
  destruct (matchAt r (pre2 +:+ tail) [] _) as [m |] eqn:Hm; [| reflexivity].
  exfalso. apply (Hbefore pre1 pre2 Heq Hne). apply HP. by exists m.
Qed.

Lemma noMatchBefore_notBefore (r : regex) (P : string -> Prop) (pre tail : string) :
  (forall t, (exists caps, matchAt r t [] done_ = Some caps) <-> P t) ->
  noMatchBefore r pre tail = true -> notBefore P pre tail.
Proof.
  intros HP. induction pre as [| c pre IH]; intros Hcheck pre1 pre2 Heq Hne HPt.
  - destruct pre1, pre2; try discriminate. by destruct Hne.
  - simpl in Hcheck.
    destruct (matchAt r (String c pre +:+ tail) [] _) as [m |] eqn:Hm; [discriminate |].
    destruct pre1 as [| x pre1].
    + rewrite append_nil_l in Heq. subst pre2.
      apply HP in HPt as [caps Hcaps]. by rewrite Hm in Hcaps.
    + rewrite append_cons in Heq. injection Heq as _ ->.
      by apply (IH Hcheck pre1 pre2).
Qed.

(** Without a call of fnView in the handler, the identifier is empty. *)
Lemma getUniqId_no_call (element : list node) :
  ~ occursIn fnViewCallAt (default "" (attr "onclick" element)) ->
  getUniqId element = "".
Proof.
  intros Hnone. unfold getUniqId.
  apply (no_occurrence_no_match fnViewPattern fnViewCallAt _ fnView_at_iff) in Hnone.
  by rewrite Hnone.
Qed.

(** C4. [getUniqId] of an element whose click handler is
    fnView('1005200642', 'admin', '', '','') is 1005200642, the quoted first
    argument without its quotes; more generally it is the first argument of
    the first call of fnView in the handler.  Of an element whose handler
    holds no such call (or that has no handler) it is the empty string. *)
Theorem getUniqId_extraction :
  (forall element : list node,
      attr "onclick" element = Some "fnView('1005200642', 'admin', '', '','')" ->
      getUniqId element = "1005200642") /\
  (forall (element : list node) (pre id rest : string),
      attr "onclick" element = Some (pre +:+ "fnView('" +:+ id +:+ "'" +:+ rest) ->
      quoteFree id = true ->
      notBefore fnViewCallAt pre ("fnView('" +:+ id +:+ "'" +:+ rest) ->
      getUniqId element = id) /\
  (forall element : list node,
      ~ occursIn fnViewCallAt (default "" (attr "onclick" element)) ->
      getUniqId element = "").
Proof.
  split; [| split].
  - intros element Hattr. unfold getUniqId. by rewrite Hattr.
  - intros element pre id rest Hattr Hid Hfirst. unfold getUniqId. rewrite Hattr.
    simpl default.
    by rewrite (first_occurrence_match fnViewPattern fnViewCallAt pre _ [id]
                  fnView_at_iff (fnView_at_value id rest Hid) Hfirst).
  - apply getUniqId_no_call.
Qed.

(** C5. [extractNttSeq] returns 1005200644 for each of the three quoting
    styles of the parameter (bare, single-quoted, double-quoted); more
    generally it returns the digits of the first place in the text where the
    parameter stands; for a text where it stands nowhere it returns the empty
    string. *)
Theorem extractNttSeq_extraction :
  extractNttSeq "nttSeq=1005200644" = "1005200644" /\
  extractNttSeq "nttSeq='1005200644'" = "1005200644" /\
  extractNttSeq ("nttSeq=" +:+ String dquote ("1005200644" +:+ String dquote ""))
    = "1005200644" /\
  (forall (pre q ds rest : string) (sep d : ascii),
      sep = "="%char \/ sep = ":"%char ->
      q = "" \/ q = String quote "" \/ q = String dquote "" ->
      isDigit d = true -> allChars isDigit ds = true -> noLeadingDigit rest = true ->
      notBefore nttSeqAt pre ("nttSeq" +:+ String sep (q +:+ String d (ds +:+ rest))) ->
      extractNttSeq (pre +:+ "nttSeq" +:+ String sep (q +:+ String d (ds +:+ rest)))
        = String d ds) /\
  (forall page : string, ~ occursIn nttSeqAt page -> extractNttSeq page = "").
Proof.
  repeat split; try reflexivity.
  - intros pre q ds rest sep d Hsep Hq Hd Hds Hrest Hfirst. unfold extractNttSeq.
    by rewrite (first_occurrence_match nttSeqPattern nttSeqAt pre _ [String d ds]
                  nttSeq_at_iff (nttSeq_at_value sep d q ds rest Hsep Hq Hd Hds Hrest) Hfirst).
  - intros page Hnone. unfold extractNttSeq.
    apply (no_occurrence_no_match nttSeqPattern nttSeqAt _ nttSeq_at_iff) in Hnone.
    by rewrite Hnone.
Qed.

End Patterns.

(** ** Properties of the list parser *)

Section Parsing.

Variable env : Env.
Variable cleanUrl : string -> string.
Variable getDate : string -> JsDate.
Variable trim : string -> string.
Variable load : string -> list node.

Local Abbreviation parse := (parseYngogoList env cleanUrl getDate trim load).
Local Abbreviation item := (rowItem cleanUrl getDate trim).

(** One step of the loop: a row without [td] leaves [posts] alone, any other
    row appends its item. *)
Lemma eachRow_step (menuSeq bbsSeq sitecntntsSeq : string)
    (posts : list ParsedTargetListItem) (element : node) :
  eachRow cleanUrl getDate trim menuSeq bbsSeq sitecntntsSeq posts element =
    if dataRow element then posts ++ [item menuSeq bbsSeq sitecntntsSeq element]
    else posts.
Proof.
  unfold eachRow, dataRow. destruct (_ =? _)%nat; reflexivity.
Qed.

Lemma fold_eachRow (menuSeq bbsSeq sitecntntsSeq : string)
    (rows : list node) (posts : list ParsedTargetListItem) :
  fold_left (eachRow cleanUrl getDate trim menuSeq bbsSeq sitecntntsSeq) rows posts =
    posts ++ List.map (item menuSeq bbsSeq sitecntntsSeq) (List.filter dataRow rows).
Proof.
  revert posts. induction rows as [| element rows IH]; intros posts; simpl.
  - by rewrite app_nil_r.
  - rewrite IH, eachRow_step. destruct (dataRow element); simpl; [| reflexivity].
    by rewrite <- app_assoc.
Qed.

(** The loop pushes one item per row that has a [td], in row order. *)
Lemma parseRows_items (menuSeq bbsSeq sitecntntsSeq : string) (doc : list node) :
  parseRows cleanUrl getDate trim menuSeq bbsSeq sitecntntsSeq doc =
    List.map (item menuSeq bbsSeq sitecntntsSeq) (List.filter dataRow (tableRows doc)).
Proof. unfold parseRows. by rewrite fold_eachRow. Qed.

(** [parseYngogoList] returns the items of the answer, whatever its status. *)
Lemma parseYngogoList_returns (_html menuSeq bbsSeq sitecntntsSeq page : string)
    (w : World) (r : Response) :
  answered env menuSeq bbsSeq sitecntntsSeq w r ->
  resp_text r = Ok page ->
  exists w1,
    parse _html menuSeq bbsSeq sitecntntsSeq w =
      (Ok (List.map (item menuSeq bbsSeq sitecntntsSeq)
             (List.filter dataRow (tableRows (load page)))), w1).
Proof.
  unfold answered. intros Hnet Hbody.
  unfold parseYngogoList, getRandomUserAgent, randomIndex, fetch, responseText,
    mbind, IO_bind, mret, IO_ret.
  cbv beta iota zeta. fold (nextUserAgent env w).
  cbn [trace]. rewrite Hnet, Hbody, parseRows_items. eauto.
Qed.

Lemma dataRow_true (element : node) :
  dataRow element = true <-> find "td" [element] <> [].
Proof.
  unfold dataRow. destruct (find "td" [element]); simpl; split; congruence.
Qed.

Lemma dataRow_false (element : node) :
  dataRow element = false <-> find "td" [element] = [].
Proof.
  unfold dataRow. destruct (find "td" [element]); simpl; split; congruence.
Qed.

(** The URL of a row whose identifier is empty. *)
Lemma rawDetailUrl_empty_id (menuSeq bbsSeq sitecntntsSeq : string) :
  rawDetailUrl menuSeq bbsSeq sitecntntsSeq "" =
    BASE_URL +:+ "/subList/" +:+ menuSeq +:+ "?pmode=detail&nttSeq=&bbsSeq="
      +:+ bbsSeq +:+ "&sitecntntsSeq=" +:+ sitecntntsSeq.
Proof. reflexivity. Qed.

Lemma rawDetailUrl_nonempty (menuSeq bbsSeq sitecntntsSeq id : string) :
  rawDetailUrl menuSeq bbsSeq sitecntntsSeq id <> "".
Proof. discriminate. Qed.

(** C3, as the code has it.  The identifiers of the items are, in row
    order, the identifiers read from the rows that have a [td]; the parser
    neither drops nor merges items by identifier, so the identifiers of one
    result are pairwise distinct exactly when those of its rows are. *)
Theorem parseYngogoList_ids_follow_rows
    (_html menuSeq bbsSeq sitecntntsSeq page : string) (w : World) (r : Response) :
  answered env menuSeq bbsSeq sitecntntsSeq w r ->
  resp_text r = Ok page ->
  exists items w1,
    parse _html menuSeq bbsSeq sitecntntsSeq w = (Ok items, w1) /\
    List.map uniqId items =
      List.map rowUniqId (List.filter dataRow (tableRows (load page))) /\
    (NoDup (List.map uniqId items) <->
     NoDup (List.map rowUniqId (List.filter dataRow (tableRows (load page))))).
Proof.
  intros Hnet Hbody.
  destruct (parseYngogoList_returns _html menuSeq bbsSeq sitecntntsSeq page w r Hnet Hbody)
    as [w1 Hrun].
  eexists _, w1. split; [exact Hrun |].
  assert (Hids : forall rows,
             List.map uniqId (List.map (item menuSeq bbsSeq sitecntntsSeq) rows) =
             List.map rowUniqId rows).
  { intros rows. rewrite List.map_map. reflexivity. }
  rewrite Hids. split; reflexivity.
Qed.

(** C6. [parseYngogoList] walks the rows of the fragment and skips the rows
    without a [td]: it returns one item per row that has a [td], in row order.
    For a fragment of one header-only row and three data rows it returns
    exactly three items. *)
Theorem parseYngogoList_skips_rows_without_td
    (_html menuSeq bbsSeq sitecntntsSeq page : string) (w : World) (r : Response) :
  answered env menuSeq bbsSeq sitecntntsSeq w r ->
  resp_text r = Ok page ->
  exists items w1,
    parse _html menuSeq bbsSeq sitecntntsSeq w = (Ok items, w1) /\
    items = List.map (item menuSeq bbsSeq sitecntntsSeq)
              (List.filter dataRow (tableRows (load page))) /\
    length items = length (List.filter dataRow (tableRows (load page))) /\
    (forall header r1 r2 r3 : node,
        tableRows (load page) = [header; r1; r2; r3] ->
        find "td" [header] = [] ->
        find "td" [r1] <> [] -> find "td" [r2] <> [] -> find "td" [r3] <> [] ->
        items = [item menuSeq bbsSeq sitecntntsSeq r1;
                 item menuSeq bbsSeq sitecntntsSeq r2;
                 item menuSeq bbsSeq sitecntntsSeq r3] /\
        length items = 3%nat).
Proof.
  intros Hnet Hbody.
  destruct (parseYngogoList_returns _html menuSeq bbsSeq sitecntntsSeq page w r Hnet Hbody)
    as [w1 Hrun].
  eexists _, w1. split; [exact Hrun |]. split; [reflexivity |].
  split; [by rewrite length_map |].
  intros header r1 r2 r3 -> Hh H1 H2 H3.
  apply dataRow_false in Hh. apply dataRow_true in H1, H2, H3.
  simpl. by rewrite Hh, H1, H2, H3.
Qed.


(** C10. A row that has a [td] is never skipped.  When the identifier pattern
    finds no call in the handler of its title link, the row still gives an
    item: its [uniqId] is the empty string and its [detailUrl] is built with
    an empty nttSeq value.  Rows are dropped for having no [td] and for
    nothing else. *)
Theorem parseYngogoList_keeps_rows_without_id
    (_html menuSeq bbsSeq sitecntntsSeq page : string) (w : World) (r : Response) :
  answered env menuSeq bbsSeq sitecntntsSeq w r ->
  resp_text r = Ok page ->
  exists items w1,
    parse _html menuSeq bbsSeq sitecntntsSeq w = (Ok items, w1) /\
    items = List.map (item menuSeq bbsSeq sitecntntsSeq)
              (List.filter dataRow (tableRows (load page))) /\
    forall element : node,
      In element (tableRows (load page)) ->
      find "td" [element] <> [] ->
      In (item menuSeq bbsSeq sitecntntsSeq element) items /\
      (~ occursIn fnViewCallAt (default "" (attr "onclick" (titleElementOf element))) ->
       uniqId (item menuSeq bbsSeq sitecntntsSeq element) = "" /\
       detailUrl (item menuSeq bbsSeq sitecntntsSeq element) =
         cleanUrl (BASE_URL +:+ "/subList/" +:+ menuSeq +:+ "?pmode=detail&nttSeq=&bbsSeq="
                     +:+ bbsSeq +:+ "&sitecntntsSeq=" +:+ sitecntntsSeq)).
Proof.
  intros Hnet Hbody.
  destruct (parseYngogoList_returns _html menuSeq bbsSeq sitecntntsSeq page w r Hnet Hbody)
    as [w1 Hrun].
  eexists _, w1. split; [exact Hrun |]. split; [reflexivity |].
  intros element Hin Htd. split.
  - apply List.in_map, List.filter_In. split; [exact Hin | by apply dataRow_true].
  - intros Hnone.
    assert (Hid : rowUniqId element = "").
    { unfold rowUniqId. by apply getUniqId_no_call. }
    simpl. rewrite Hid. split; [reflexivity |]. by rewrite rawDetailUrl_empty_id.
Qed.

End Parsing.

Section CanonicalUrls.

Variable env : Env.
Variable keep : string -> string.
Variable getDate : string -> JsDate.
Variable trim : string -> string.
Variable load : string -> list node.



End CanonicalUrls.

(** ** More on the patterns: what an extracted identifier looks like *)

Section PatternResults.

Local Abbreviation done_ := (fun (_ : string) (caps : list string) => Some caps).

Lemma allChars_append (p : ascii -> bool) (a b : string) :
  allChars p (a +:+ b) = allChars p a && allChars p b.
Proof.
  induction a as [| c a IH]; [reflexivity |].
  rewrite append_cons. simpl. by rewrite IH, andb_assoc.
Qed.

(** What the identifier pattern captures is free of quotes. *)
Lemma fnView_capture (s : string) (caps : list string) :
  matchAt fnViewPattern s [] done_ = Some caps ->
  exists id, caps = [id] /\ quoteFree id = true.
Proof.
  rewrite matchAt_fnView.
  destruct (stripPrefix "fnView('" s) as [s1 |]; [| discriminate].
  intros Hm. apply star_Some in Hm as (a & b & -> & Ha & Hk).
  destruct (stripPrefix "'" b); [| discriminate].
  injection Hk as <-. exists a. rewrite consumed_append.
  by rewrite <- quoteFree_accepts.
Qed.

(** What the digits of the sequence pattern capture is a digit followed by
    digits. *)
Lemma digits_capture (s : string) (caps m : list string) :
  matchAt (Group (Plus Digit)) s caps done_ = Some m ->
  exists d ds, m = caps ++ [String d ds] /\ isDigit d = true /\ allChars isDigit ds = true.
Proof.
  rewrite matchAt_digits. destruct s as [| d s1]; [discriminate |].
  destruct (isDigit d) eqn:Hd; [| discriminate].
  intros Hm. apply star_Some in Hm as (a & b & -> & Ha & Hk).
  injection Hk as <-. exists d, a.
  by rewrite <- append_cons, consumed_append.
Qed.

Lemma nttSeq_capture (s : string) (caps : list string) :
  matchAt nttSeqPattern s [] done_ = Some caps ->
  exists d ds, caps = [String d ds] /\ isDigit d = true /\ allChars isDigit ds = true.
Proof.
  rewrite matchAt_nttSeq.
  destruct (stripPrefix "nttSeq" s) as [[| sep s1] |]; try discriminate.
  destruct (accepts _ sep); [| discriminate].
  destruct s1 as [| q s2]; [by intros ?%digits_capture |].
  destruct (accepts _ q).
  - destruct (matchAt (Group (Plus Digit)) s2 [] _) as [m |] eqn:Hm.
    + intros [= <-]. by apply digits_capture in Hm.
    + by intros ?%digits_capture.
  - by intros ?%digits_capture.
Qed.

Lemma getUniqId_no_quote (element : list node) :
  quoteFree (getUniqId element) = true.
Proof.
  unfold getUniqId.
  destruct (jsMatch fnViewPattern _) as [caps |] eqn:Hm; [| reflexivity].
  apply jsMatch_Some in Hm as (pre & rest & _ & Hm).
  by apply fnView_capture in Hm as (id & -> & Hid).
Qed.

(** X10. The identifier [getUniqId] returns never holds a quote, whatever
    the element and its handler, and it is the first argument of a call of
    fnView that stands in the handler whenever it is not empty. *)
Theorem getUniqId_is_quote_free (element : list node) :
  quoteFree (getUniqId element) = true /\
  (getUniqId element <> "" ->
   exists pre rest,
     default "" (attr "onclick" element)
       = pre +:+ "fnView('" +:+ getUniqId element +:+ "'" +:+ rest).
Proof.
  split; [apply getUniqId_no_quote |].
  unfold getUniqId.
  destruct (jsMatch fnViewPattern _) as [caps |] eqn:Hm; [| by intros []].
  apply jsMatch_Some in Hm as (pre & rest & Heq & Hm). intros _.
  rewrite matchAt_fnView in Hm.
  destruct (stripPrefix "fnView('" rest) as [s1 |] eqn:Hp; [| discriminate].
  apply stripPrefix_Some in Hp as ->.
  apply star_Some in Hm as (a & b & -> & _ & Hk).
  destruct (stripPrefix "'" b) as [b' |] eqn:Hq; [| discriminate].
  apply stripPrefix_Some in Hq as ->. injection Hk as <-.
  rewrite consumed_append. simpl. by exists pre, b'.
Qed.

(** X11. What [extractNttSeq] returns is made of digits only, and it is
    the empty string exactly when the parameter stands nowhere in the text:
    an empty result always means that nothing was found. *)
Theorem extractNttSeq_digits_only (page : string) :
  allChars isDigit (extractNttSeq page) = true /\
  (extractNttSeq page = "" <-> ~ occursIn nttSeqAt page).
Proof.
  unfold extractNttSeq.
  destruct (jsMatch nttSeqPattern page) as [caps |] eqn:Hm.
  - assert (Hsome : jsMatch nttSeqPattern page <> None) by (by rewrite Hm).
    rewrite (no_occurrence_no_match nttSeqPattern nttSeqAt page nttSeq_at_iff) in Hsome.
    apply jsMatch_Some in Hm as (pre & rest & _ & Hm).
    apply nttSeq_capture in Hm as (d & ds & -> & Hd & Hds). simpl.
    split; [by rewrite Hd, Hds |]. split; [discriminate | tauto].
  - split; [reflexivity |]. split; [| reflexivity].
    intros _. by apply (no_occurrence_no_match nttSeqPattern nttSeqAt page nttSeq_at_iff).
Qed.

(** Two texts, one after the other, split at some place: the place is in the
    first or in the second. *)
Lemma append_split (p1 p2 a b : string) :
  p1 +:+ p2 = a +:+ b ->
  (exists m, a = p1 +:+ m /\ p2 = m +:+ b) \/
  (exists m, p1 = a +:+ m /\ b = m +:+ p2).
Proof.
  revert a. induction p1 as [| c p1 IH]; intros a Heq.
  - left. exists a. by rewrite !append_nil_l in *.
  - destruct a as [| x a].
    + right. exists (String c p1). by rewrite append_nil_l in *.
    + rewrite !append_cons in Heq. injection Heq as -> Heq.
      destruct (IH a Heq) as [(m & -> & ->) | (m & -> & ->)];
        [left | right]; by exists m.
Qed.

Lemma notBefore_append (P : string -> Prop) (a b tail : string) :
  notBefore P a (b +:+ tail) -> notBefore P b tail -> notBefore P (a +:+ b) tail.
Proof.
  intros Ha Hb pre1 pre2 Heq Hne.
  destruct (append_split pre1 pre2 a b (eq_sym Heq)) as [(m & -> & ->) | (m & -> & ->)].
  - destruct m as [| c m].
    + rewrite append_nil_l in *. by apply (Hb "" b).
    + rewrite append_assoc. by apply (Ha pre1 (String c m)).
  - by apply (Hb m pre2).
Qed.

Lemma notBefore_digits (menuSeq tail : string) :
  allChars isDigit menuSeq = true -> notBefore nttSeqAt menuSeq tail.
Proof.
  intros Hdigits pre1 pre2 -> Hne (sep & q & d & rest & Heq & _).
  rewrite allChars_append in Hdigits. apply andb_true_iff in Hdigits as [_ Hdigits].
  destruct pre2 as [| c pre2]; [by destruct Hne |].
  rewrite append_cons in Heq. injection Heq as -> _. discriminate.
Qed.

(** X12. The identifier put into a detail URL comes back out of it: for a
    menu sequence and an identifier made of digits, [extractNttSeq] of the
    URL the list parser builds for the identifier is the identifier. *)
Theorem extractNttSeq_of_detail_url (menuSeq bbsSeq sitecntntsSeq id : string) :
  allChars isDigit menuSeq = true ->
  allChars isDigit id = true ->
  id <> "" ->
  extractNttSeq (rawDetailUrl menuSeq bbsSeq sitecntntsSeq id) = id.
Proof.
  intros Hmenu Hid Hne. destruct id as [| d ds]; [by destruct Hne |].
  simpl in Hid. apply andb_true_iff in Hid as [Hd Hds].
  set (rest := "&bbsSeq=" +:+ bbsSeq +:+ "&sitecntntsSeq=" +:+ sitecntntsSeq).
  set (tail := "nttSeq" +:+ String "="%char ("" +:+ String d (ds +:+ rest))).
  assert (Hurl : rawDetailUrl menuSeq bbsSeq sitecntntsSeq (String d ds) =
                 ("http://www.yngogo.or.kr/subList/" +:+ menuSeq +:+ "?pmode=detail&")
                   +:+ tail).
  { unfold rawDetailUrl, BASE_URL, tail, rest. by rewrite !append_assoc. }
  rewrite Hurl. unfold extractNttSeq.
  rewrite (first_occurrence_match nttSeqPattern nttSeqAt _ tail [String d ds] nttSeq_at_iff).
  - reflexivity.
  - apply nttSeq_at_value; auto.
  - apply notBefore_append; [| apply notBefore_append].
    + by apply (noMatchBefore_notBefore nttSeqPattern nttSeqAt _ _ nttSeq_at_iff).
    + by apply notBefore_digits.
    + by apply (noMatchBefore_notBefore nttSeqPattern nttSeqAt _ _ nttSeq_at_iff).
Qed.

End PatternResults.

(** ** More on the parsers: the request, the answer, the document *)

Section NodeInduction.

(** Induction on a node, with the property known of every child. *)
Lemma node_children_ind (P : node -> Prop) :
  (forall data, P (TextNode data)) ->
  (forall name attribs cs, Forall P cs -> P (Element name attribs cs)) ->
  forall n, P n.
Proof.
  intros Htext Helem. fix IH 1. intros [data | name attribs cs].
  - apply Htext.
  - apply Helem. induction cs as [| c cs IHcs]; constructor; [apply IH | exact IHcs].
Qed.

Lemma filter_nil_all {A : Type} (p : A -> bool) (l : list A) :
  List.filter p l = [] -> forall x, In x l -> p x = false.
Proof.
  induction l as [| y l IH]; intros Hnil x Hin; [destruct Hin |].
  simpl in Hnil. destruct (p y) eqn:Hy; [discriminate |].
  destruct Hin as [<- | Hin]; [exact Hy | by apply IH].
Qed.

(** Below an element without the class, whose descendants are without it
    too, no row is selected. *)
Lemma tableRowsIn_no_class (n : node) :
  hasClass "basic-table01" n = false ->
  (forall d, In d (descendants n) -> hasClass "basic-table01" d = false) ->
  tableRowsIn false n = [].
Proof.
  induction n as [data | name attribs cs IH] using node_children_ind;
    intros Hn Hbelow; [reflexivity |].
  simpl tableRowsIn. rewrite Hn. simpl.
  simpl descendants in Hbelow.
  induction IH as [| c cs Hc _ IHcs]; [reflexivity |].
  simpl. simpl in Hbelow.
  assert (Hhead : tableRowsIn false c = []).
  { destruct c as [data | cname cattribs ccs]; [reflexivity |].
    apply Hc.
    - apply Hbelow, in_or_app. left. by left.
    - intros d Hd. apply Hbelow, in_or_app. left. by right. }
  rewrite Hhead. apply IHcs; [exact Hn |].
  intros d Hd. apply Hbelow, in_or_app. by right.
Qed.

Lemma tableRows_no_class (doc : list node) :
  select (hasClass "basic-table01") doc = [] -> tableRows doc = [].
Proof.
  intros Hnone. pose proof (filter_nil_all _ _ Hnone) as Hall. clear Hnone.
  unfold tableRows. induction doc as [| n doc IH]; [reflexivity |].
  simpl. simpl in Hall.
  assert (Hhead : tableRowsIn false n = []).
  { destruct n as [data | name attribs cs]; [reflexivity |].
    apply tableRowsIn_no_class.
    - apply Hall, in_or_app. left. by left.
    - intros d Hd. apply Hall, in_or_app. left. by right. }
  rewrite Hhead. apply IH. intros x Hx. apply Hall, in_or_app. by right.
Qed.

(** The class test on white space that is not ASCII: a no-break space and an
    ideographic space separate class names; a name that only starts or ends
    with the class does not count. *)
Lemma hasClass_white_space :
  hasClass "basic-table01"
    (Element "table" [("class", "tbl" +:+ utf8 [194; 160]%nat +:+ "basic-table01")] []) = true /\
  hasClass "conM_txt"
    (Element "div" [("class", "view" +:+ utf8 [227; 128; 128]%nat +:+ "conM_txt")] []) = true /\
  hasClass "basic-table01" (Element "table" [("class", "basic-table01x")] []) = false /\
  hasClass "basic-table01" (Element "table" [("class", "xbasic-table01")] []) = false.
Proof. repeat split; reflexivity. Qed.

End NodeInduction.

Section ParsingMore.

Variable env : Env.
Variable cleanUrl : string -> string.
Variable getDate : string -> JsDate.
Variable trim : string -> string.
Variable load : string -> list node.

Local Abbreviation parse := (parseYngogoList env cleanUrl getDate trim load).
Local Abbreviation rows := (parseRows cleanUrl getDate trim).

(** [parseYngogoList] by the network's answer. *)
Lemma parseYngogoList_run (_html menuSeq bbsSeq sitecntntsSeq : string) (w : World) :
  let rq := listRequest (nextUserAgent env w) menuSeq bbsSeq sitecntntsSeq in
  let w1 := mkWorld (htmlCache w) (clockReads w) (S (draws w)) (trace w ++ [EvFetch rq]) in
  parse _html menuSeq bbsSeq sitecntntsSeq w =
    match network env (length (trace w)) rq with
    | inl e => (Throw e, w1)
    | inr r =>
        match resp_text r with
        | Ok page => (Ok (rows menuSeq bbsSeq sitecntntsSeq (load page)), w1)
        | Throw e => (Throw e, w1)
        end
    end.
Proof.
  unfold parseYngogoList, getRandomUserAgent, randomIndex, fetch, responseText,
    mbind, IO_bind, mret, IO_ret.
  cbv beta iota zeta. fold (nextUserAgent env w). cbn [trace htmlCache clockReads draws].
  destruct (network env _ _) as [e | r]; [reflexivity |].
  destruct (resp_text r); reflexivity.
Qed.

Lemma parseYngogoList_keeps_cache (_html menuSeq bbsSeq sitecntntsSeq : string) (w : World) :
  htmlCache (parse _html menuSeq bbsSeq sitecntntsSeq w).2 = htmlCache w.
Proof.
  rewrite parseYngogoList_run. simpl.
  destruct (network env _ _) as [e | r]; [reflexivity |].
  destruct (resp_text r); reflexivity.
Qed.

(** X13. [parseYngogoList] does not read the page it is given: whatever
    [_html] is, it sends one POST to the list endpoint, with the form of the
    source and a User-Agent of the pool, and does the same with the answer.
    It leaves the HTML cache alone. *)
Theorem parseYngogoList_sends_one_post
    (_html menuSeq bbsSeq sitecntntsSeq : string) (w : World) :
  let out := parse _html menuSeq bbsSeq sitecntntsSeq w in
  let rq := listRequest (nextUserAgent env w) menuSeq bbsSeq sitecntntsSeq in
  trace out.2 = trace w ++ [EvFetch rq] /\
  networkCalls out.2 = S (networkCalls w) /\
  req_method rq = "POST" /\ req_url rq = LIST_API_URL /\
  In ("User-Agent", nextUserAgent env w) (req_headers rq) /\
  In (nextUserAgent env w) USER_AGENTS /\
  htmlCache out.2 = htmlCache w /\
  forall other : string, parse other menuSeq bbsSeq sitecntntsSeq w = out.
Proof.
  intros out rq.
  assert (Htrace : trace out.2 = trace w ++ [EvFetch rq]).
  { subst out. rewrite parseYngogoList_run. simpl.
    destruct (network env _ _) as [e | r]; [reflexivity |].
    destruct (resp_text r); reflexivity. }
  split; [exact Htrace |].
  split; [by apply (networkCalls_snoc_fetch w out.2 rq) |].
  split; [reflexivity |]. split; [reflexivity |].
  split; [right; by left |].
  split; [apply nextUserAgent_in_pool |].
  split; [apply parseYngogoList_keeps_cache |].
  intros other. subst out. by rewrite !parseYngogoList_run.
Qed.

(** X14. [parseYngogoList] does not look at the status of the answer: a
    body that can be read is parsed, under 200 as under 404 or 500.  The call
    throws only when the request is rejected or the body cannot be read, and
    then with that error. *)
Theorem parseYngogoList_ignores_status
    (_html menuSeq bbsSeq sitecntntsSeq : string) (w : World) :
  let out := parse _html menuSeq bbsSeq sitecntntsSeq w in
  let rq := listRequest (nextUserAgent env w) menuSeq bbsSeq sitecntntsSeq in
  (forall (code : N) (reason page : string),
      network env (length (trace w)) rq = inr (mkResponse code reason (Ok page)) ->
      out.1 = Ok (rows menuSeq bbsSeq sitecntntsSeq (load page))) /\
  (forall e : Error, network env (length (trace w)) rq = inl e -> out.1 = Throw e) /\
  (forall (code : N) (reason : string) (e : Error),
      network env (length (trace w)) rq = inr (mkResponse code reason (Throw e)) ->
      out.1 = Throw e).
Proof.
  intros out rq. subst out. rewrite parseYngogoList_run. fold rq. simpl.
  split; [| split].
  - intros code reason page Hnet. by rewrite Hnet.
  - intros e Hnet. by rewrite Hnet.
  - intros code reason e Hnet. by rewrite Hnet.
Qed.

(** X15. A page in which no element has the class of the table gives the
    empty list of items, not an error. *)
Theorem parseYngogoList_without_table
    (_html menuSeq bbsSeq sitecntntsSeq page : string) (w : World) (r : Response) :
  answered env menuSeq bbsSeq sitecntntsSeq w r ->
  resp_text r = Ok page ->
  select (hasClass "basic-table01") (load page) = [] ->
  (parse _html menuSeq bbsSeq sitecntntsSeq w).1 = Ok [].
Proof.
  unfold answered. intros Hnet Hbody Hnone.
  rewrite parseYngogoList_run. simpl. rewrite Hnet, Hbody. simpl.
  unfold parseRows. by rewrite (tableRows_no_class _ Hnone).
Qed.

(** X16. In every item of a result the [detailUrl] is [cleanUrl] of the URL
    built from the item's own [uniqId] and the three parameters of the call,
    the [dateType] is REGISTERED, and the [uniqId] holds no quote. *)
Theorem parseRows_item_shape
    (menuSeq bbsSeq sitecntntsSeq : string) (doc : list node) (it : ParsedTargetListItem) :
  In it (rows menuSeq bbsSeq sitecntntsSeq doc) ->
  detailUrl it = cleanUrl (rawDetailUrl menuSeq bbsSeq sitecntntsSeq (uniqId it)) /\
  dateType it = REGISTERED /\
  quoteFree (uniqId it) = true.
Proof.
  rewrite parseRows_items. intros Hin.
  apply List.in_map_iff in Hin as (element & <- & _). simpl.
  split; [reflexivity |]. split; [reflexivity |]. apply getUniqId_no_quote.
Qed.

End ParsingMore.

Section DetailMore.

Variable env : Env.
Variable load : string -> list node.
Variable innerHtml : list node -> string.
Variable turndown : string -> string.

Local Abbreviation parseDetail_ := (parseYngogoDetail env load innerHtml turndown).
Local Abbreviation detail := (detailOf innerHtml turndown).

Lemma parseYngogoDetail_run (_html menuSeq bbsSeq nttSeq sitecntntsSeq : string) (w : World) :
  let rq := detailRequest (nextUserAgent env w) menuSeq bbsSeq nttSeq sitecntntsSeq in
  let w1 := mkWorld (htmlCache w) (clockReads w) (S (draws w)) (trace w ++ [EvFetch rq]) in
  parseDetail_ _html menuSeq bbsSeq nttSeq sitecntntsSeq w =
    match network env (length (trace w)) rq with
    | inl e => (Throw e, w1)
    | inr r =>
        match resp_text r with
        | Ok page => (Ok (detail (load page)), w1)
        | Throw e => (Throw e, w1)
        end
    end.
Proof.
  unfold parseYngogoDetail, getRandomUserAgent, randomIndex, fetch, responseText,
    mbind, IO_bind, mret, IO_ret.
  cbv beta iota zeta. fold (nextUserAgent env w). cbn [trace htmlCache clockReads draws].
  destruct (network env _ _) as [e | r]; [reflexivity |].
  destruct (resp_text r); reflexivity.
Qed.

(** X17. [parseYngogoDetail] does not read the page it is given either: it
    sends one POST to the detail endpoint whose form carries the item
    sequence, reads the record off the answer whatever its status, throws
    only the error of a rejected request or of an unreadable body, and leaves
    the HTML cache alone. *)
Theorem parseYngogoDetail_sends_one_post
    (_html menuSeq bbsSeq nttSeq sitecntntsSeq : string) (w : World) :
  let out := parseDetail_ _html menuSeq bbsSeq nttSeq sitecntntsSeq w in
  let rq := detailRequest (nextUserAgent env w) menuSeq bbsSeq nttSeq sitecntntsSeq in
  trace out.2 = trace w ++ [EvFetch rq] /\
  req_method rq = "POST" /\ req_url rq = DETAIL_API_URL /\
  (exists form, req_body rq = Some form /\ In ("nttSeq", nttSeq) form) /\
  htmlCache out.2 = htmlCache w /\
  (forall other : string, parseDetail_ other menuSeq bbsSeq nttSeq sitecntntsSeq w = out) /\
  (forall (code : N) (reason page : string),
      network env (length (trace w)) rq = inr (mkResponse code reason (Ok page)) ->
      out.1 = Ok (detail (load page))) /\
  (forall e : Error, network env (length (trace w)) rq = inl e -> out.1 = Throw e) /\
  (forall (code : N) (reason : string) (e : Error),
      network env (length (trace w)) rq = inr (mkResponse code reason (Throw e)) ->
      out.1 = Throw e).
Proof.
  intros out rq. subst out. rewrite parseYngogoDetail_run. fold rq.
  split; [| split; [reflexivity | split; [reflexivity
    | split; [| split; [| split; [| split; [| split]]]]]]].
  - simpl. destruct (network env _ _) as [e | r]; [reflexivity |].
    destruct (resp_text r); reflexivity.
  - eexists. split; [reflexivity |]. right. right. by left.
  - simpl. destruct (network env _ _) as [e | r]; [reflexivity |].
    destruct (resp_text r); reflexivity.
  - intros other. by rewrite parseYngogoDetail_run.
  - intros code reason page Hnet. simpl. by rewrite Hnet.
  - intros e Hnet. simpl. by rewrite Hnet.
  - intros code reason e Hnet. simpl. by rewrite Hnet.
Qed.

End DetailMore.

(** ** Properties of the handlers *)

Section HandlerProperties.

Variable env : Env.
Variable crawlingTargetGroups : list TargetGroup.

Lemma find_none_all {A : Type} (f : A -> bool) (l : list A) :
  (forall x, In x l -> f x = false) -> List.find f l = None.
Proof.
  induction l as [| x l IH]; intros Hall; simpl; [reflexivity |].
  rewrite (Hall x (or_introl eq_refl)). apply IH. intros y Hy. apply Hall. by right.
Qed.

(** C8. A request that names a group of the registry and a target that the
    group does not have is answered 404 with a message that names the target
    identifier; the handler returns at once, so nothing is fetched, nothing
    is parsed and the world is as before.  This holds for /api/parse-list and
    for /api/parse-detail. *)
Theorem unknown_target_is_not_found :
  (forall (body : ParseListBody) (group : TargetGroup) (w : World),
      List.find (fun g => strictEq (group_id g) (groupId body)) crawlingTargetGroups
        = Some group ->
      (forall t, In t (targets group) -> strictEq (target_id t) (targetId body) = false) ->
      parseListHandler env crawlingTargetGroups body w =
        (Ok (ErrorReply 404 ("Target not found: " +:+ toTemplate (targetId body))), w)) /\
  (forall (body : ParseDetailBody) (group : TargetGroup) (w : World),
      List.find (fun g => strictEq (group_id g) (d_groupId body)) crawlingTargetGroups
        = Some group ->
      (forall t, In t (targets group) -> strictEq (target_id t) (d_targetId body) = false) ->
      parseDetailHandler env crawlingTargetGroups body w =
        (Ok (ErrorReply 404 ("Target not found: " +:+ toTemplate (d_targetId body))), w)).
Proof.
  split; intros body group w Hgroup Htarget.
  - unfold parseListHandler, try_catch. rewrite Hgroup.
    by rewrite (find_none_all _ _ Htarget).
  - unfold parseDetailHandler, try_catch. rewrite Hgroup.
    by rewrite (find_none_all _ _ Htarget).
Qed.

End HandlerProperties.

(** ** More on the handlers: the other replies *)

Section HandlerMore.

Variable env : Env.
Variable crawlingTargetGroups : list TargetGroup.

Local Abbreviation listHandler := (parseListHandler env crawlingTargetGroups).
Local Abbreviation detailHandler := (parseDetailHandler env crawlingTargetGroups).

(** A failed [fetchHtml] went to the network, logged its request and left
    the cache alone. *)
Lemma fetchHtml_throw_shape (url : string) (useCache : bool) (w w1 : World) (e : Error) :
  fetchHtml env url useCache w = (Throw e, w1) ->
  htmlCache w1 = htmlCache w /\
  exists ua, trace w1 = trace w ++ [EvFetch (htmlRequest url ua)].
Proof.
  intros Hrun.
  destruct (served_or_not env url useCache w) as [[-> (c & Hc & Hfresh)] | Hmiss].
  - rewrite fetchHtml_run, Hc in Hrun. simpl in Hrun.
    apply fresh_ltb in Hfresh. by rewrite Hfresh in Hrun.
  - destruct (fetchHtml_miss env url useCache w Hmiss) as (n & _ & Heq).
    rewrite Heq in Hrun. split.
    + by apply fetchFresh_error_keeps_cache in Hrun.
    + exists (nextUserAgent env w).
      replace w1 with (fetchFresh env url
                         (mkWorld (htmlCache w) n (draws w) (trace w))).2
        by (by rewrite Hrun).
      apply fetchFresh_trace_at.
Qed.

(** /api/parse-list once group and target are found: the page is fetched,
    then parsed; an error of either step becomes the reply of the [catch]
    branch. *)
Lemma parseListHandler_found
    (body : ParseListBody) (group : TargetGroup) (target : TargetDefinition) (w : World) :
  List.find (fun g => strictEq (group_id g) (groupId body)) crawlingTargetGroups
    = Some group ->
  List.find (fun t => strictEq (target_id t) (targetId body)) (targets group)
    = Some target ->
  listHandler body w =
    let url := listUrl body target in
    match fetchHtml env url (negb (skipCache body)) (tick w) with
    | (Throw e, w1) => (Ok (FailureReply (message e)), w1)
    | (Ok page, w1) =>
        let fetchTime := clock env (clockReads w1) - clock env (clockReads w) in
        match parseList target page
                (logged (EvParseList (target_id target) page) (tick (tick w1))) with
        | (Throw e, w2) => (Ok (FailureReply (message e)), w2)
        | (Ok items, w2) =>
            let parseTime := clock env (clockReads w2) - clock env (S (clockReads w1)) in
            (Ok (ListReply url page items
                   (mkTiming fetchTime parseTime (fetchTime + parseTime))
                   (if negb (skipCache body)
                    then bool_decide (is_Some (htmlCache w2 !! url)) else false)),
             tick w2)
        end
    end.
Proof.
  intros Hgroup Htarget. unfold parseListHandler, try_catch. rewrite Hgroup, Htarget.
  unfold mbind, IO_bind, mret, IO_ret, dateNow, log, cacheHas. simpl.
  fold (tick w) (listUrl body target).
  destruct (fetchHtml env _ _ (tick w)) as [[page | e] w1]; [| reflexivity].
  simpl. fold (tick w1). fold (tick (tick w1)).
  fold (logged (EvParseList (target_id target) page) (tick (tick w1))).
  destruct (parseList target page _) as [[items | e] w2]; [| reflexivity].
  simpl. fold (tick w2). by destruct (skipCache body).
Qed.

(** /api/parse-detail once group, target and URL are there. *)
Lemma parseDetailHandler_found
    (body : ParseDetailBody) (group : TargetGroup) (target : TargetDefinition)
    (url : string) (w : World) :
  List.find (fun g => strictEq (group_id g) (d_groupId body)) crawlingTargetGroups
    = Some group ->
  List.find (fun t => strictEq (target_id t) (d_targetId body)) (targets group)
    = Some target ->
  truthyUrl (d_detailUrl body) = Some url ->
  detailHandler body w =
    match fetchHtml env url (negb (d_skipCache body)) (tick w) with
    | (Throw e, w1) => (Ok (FailureReply (message e)), w1)
    | (Ok page, w1) =>
        let fetchTime := clock env (clockReads w1) - clock env (clockReads w) in
        match parseDetail target page
                (logged (EvParseDetail (target_id target) page) (tick (tick w1))) with
        | (Throw e, w2) => (Ok (FailureReply (message e)), w2)
        | (Ok article, w2) =>
            let parseTime := clock env (clockReads w2) - clock env (S (clockReads w1)) in
            (Ok (DetailReply url page article
                   (mkTiming fetchTime parseTime (fetchTime + parseTime))
                   (if negb (d_skipCache body)
                    then bool_decide (is_Some (htmlCache w2 !! url)) else false)),
             tick w2)
        end
    end.
Proof.
  intros Hgroup Htarget Hurl. unfold parseDetailHandler, try_catch.
  rewrite Hgroup, Htarget, Hurl.
  unfold mbind, IO_bind, mret, IO_ret, dateNow, log, cacheHas. simpl.
  fold (tick w).
  destruct (fetchHtml env _ _ (tick w)) as [[page | e] w1]; [| reflexivity].
  simpl. fold (tick w1). fold (tick (tick w1)).
  fold (logged (EvParseDetail (target_id target) page) (tick (tick w1))).
  destruct (parseDetail target page _) as [[article | e] w2]; [| reflexivity].
  simpl. fold (tick w2). by destruct (d_skipCache body).
Qed.

(** X5. A request whose group identifier no group of the registry has is
    answered 404 with a message that names the group identifier, on both
    routes, and the world is as before.  An identifier that is not a string
    (a missing one included) is the identifier of no group. *)
Theorem unknown_group_is_not_found :
  (forall (body : ParseListBody) (w : World),
      (forall g, In g crawlingTargetGroups -> strictEq (group_id g) (groupId body) = false) ->
      listHandler body w =
        (Ok (ErrorReply 404 ("Group not found: " +:+ toTemplate (groupId body))), w)) /\
  (forall (body : ParseDetailBody) (w : World),
      (forall g, In g crawlingTargetGroups -> strictEq (group_id g) (d_groupId body) = false) ->
      detailHandler body w =
        (Ok (ErrorReply 404 ("Group not found: " +:+ toTemplate (d_groupId body))), w)) /\
  (forall (body : ParseListBody) (w : World),
      (forall s, groupId body <> JStr s) ->
      listHandler body w =
        (Ok (ErrorReply 404 ("Group not found: " +:+ toTemplate (groupId body))), w)).
Proof.
  assert (Hlist : forall (body : ParseListBody) (w : World),
      (forall g, In g crawlingTargetGroups -> strictEq (group_id g) (groupId body) = false) ->
      listHandler body w =
        (Ok (ErrorReply 404 ("Group not found: " +:+ toTemplate (groupId body))), w)).
  { intros body w Hnone. unfold parseListHandler, try_catch.
    by rewrite (find_none_all _ _ Hnone). }
  split; [exact Hlist |]. split.
  - intros body w Hnone. unfold parseDetailHandler, try_catch.
    by rewrite (find_none_all _ _ Hnone).
  - intros body w Hnostr. apply Hlist. intros g _.
    destruct (groupId body) as [| | b | s]; try reflexivity. by destruct (Hnostr s).
Qed.

(** X6. On /api/parse-detail a request for a known target without
    detailUrl, or with an empty one, is answered 400 and nothing is
    fetched. *)
Theorem detail_url_is_required
    (body : ParseDetailBody) (group : TargetGroup) (target : TargetDefinition) (w : World) :
  List.find (fun g => strictEq (group_id g) (d_groupId body)) crawlingTargetGroups
    = Some group ->
  List.find (fun t => strictEq (target_id t) (d_targetId body)) (targets group)
    = Some target ->
  d_detailUrl body = None \/ d_detailUrl body = Some "" ->
  detailHandler body w = (Ok (ErrorReply 400 "detailUrl is required"), w).
Proof.
  intros Hgroup Htarget Hurl. unfold parseDetailHandler, try_catch.
  rewrite Hgroup, Htarget. by destruct Hurl as [-> | ->].
Qed.

(** X8. When the page cannot be fetched, /api/parse-list replies with the
    error's message in the [catch] branch; the parser is not called (the
    trace gains the one request and no parser call) and the cache is as
    before.  When the parser throws, its error's message is the reply. *)
Theorem list_failures_are_reported
    (body : ParseListBody) (group : TargetGroup) (target : TargetDefinition) (w : World) :
  List.find (fun g => strictEq (group_id g) (groupId body)) crawlingTargetGroups
    = Some group ->
  List.find (fun t => strictEq (target_id t) (targetId body)) (targets group)
    = Some target ->
  (forall (e : Error) (w1 : World),
      fetchHtml env (listUrl body target) (negb (skipCache body)) (tick w) = (Throw e, w1) ->
      listHandler body w = (Ok (FailureReply (message e)), w1) /\
      htmlCache w1 = htmlCache w /\
      exists ua, trace w1 = trace w ++ [EvFetch (htmlRequest (listUrl body target) ua)]) /\
  (forall (page : string) (e : Error) (w1 w2 : World),
      fetchHtml env (listUrl body target) (negb (skipCache body)) (tick w) = (Ok page, w1) ->
      parseList target page
        (logged (EvParseList (target_id target) page) (tick (tick w1))) = (Throw e, w2) ->
      listHandler body w = (Ok (FailureReply (message e)), w2)).
Proof.
  intros Hgroup Htarget. split.
  - intros e w1 Hfetch.
    rewrite (parseListHandler_found body group target w Hgroup Htarget). simpl.
    rewrite Hfetch. split; [reflexivity |].
    apply fetchHtml_throw_shape in Hfetch. exact Hfetch.
  - intros page e w1 w2 Hfetch Hparse.
    rewrite (parseListHandler_found body group target w Hgroup Htarget). simpl.
    by rewrite Hfetch, Hparse.
Qed.

(** X9. In a success reply of /api/parse-list the flag [cached] is the
    negation of [skipCache], whether the page came from the cache or from the
    network: the entry is there after every successful fetch.  (The parser is
    taken not to touch the cache, which the server keeps to itself.)  The
    URL is [customUrl], the target's URL when [customUrl] is absent or empty,
    and the total time is the sum of the two others. *)
Theorem list_reply_cached_flag
    (body : ParseListBody) (group : TargetGroup) (target : TargetDefinition)
    (w w1 : World) (url page : string) (items : list ParsedTargetListItem)
    (timing : Timing) (cached : bool) :
  List.find (fun g => strictEq (group_id g) (groupId body)) crawlingTargetGroups
    = Some group ->
  List.find (fun t => strictEq (target_id t) (targetId body)) (targets group)
    = Some target ->
  (forall (p : string) (w' : World), htmlCache (parseList target p w').2 = htmlCache w') ->
  listHandler body w = (Ok (ListReply url page items timing cached), w1) ->
  cached = negb (skipCache body) /\
  url = listUrl body target /\
  t_total timing = t_fetch timing + t_parse timing /\
  exists c, htmlCache w1 !! url = Some c /\ html c = page.
Proof.
  intros Hgroup Htarget Hkeeps.
  rewrite (parseListHandler_found body group target w Hgroup Htarget). simpl.
  destruct (fetchHtml env _ _ (tick w)) as [[page' | e] w'] eqn:Hfetch; [| discriminate].
  pose proof (Hkeeps page' (logged (EvParseList (target_id target) page') (tick (tick w'))))
    as Hcache.
  destruct (parseList target page' _) as [[items' | e] w2]; [| discriminate].
  simpl in Hcache. intros [= <- <- <- <- <- <-]. simpl.
  assert (Hentry : exists c, htmlCache w2 !! listUrl body target = Some c /\ html c = page').
  { rewrite Hcache.
    exact (fetchHtml_result_cached env _ _ _ _ _ Hfetch). }
  split; [| split; [reflexivity | split; [reflexivity | exact Hentry]]].
  destruct (skipCache body); [reflexivity |]. simpl.
  destruct Hentry as (c & -> & _). by rewrite bool_decide_eq_true_2.
Qed.

End HandlerMore.

(** ** The statements on the sample data *)

Module Instances.

Import Sample.

Lemma w0_not_served (url : string) (useCache : bool) :
  ~ (useCache = true /\ servedFromCache env url w0).
Proof.
  intros [_ (c & Hc & _)]. change (htmlCache w0) with (∅ : gmap string CacheEntry) in Hc.
  by rewrite lookup_empty in Hc.
Qed.

Lemma wStale_not_served (useCache : bool) :
  ~ (useCache = true /\ servedFromCache env downUrl wStale).
Proof.
  intros [_ (c & Hc & Hfresh)]. vm_compute in Hc. injection Hc as <-.
  vm_compute in Hfresh. discriminate.
Qed.

(** A fresh entry is served without a request; an empty cache sends one; a
    second fetch one second after the first returns the same page and the two
    send one request; the six-minute-old entry is refetched. *)
Lemma fetchHtml_cache_rule_witness :
  (exists w1,
      fetchHtml env pageUrl true wFresh = (Ok "<html>cached</html>", w1) /\
      trace w1 = trace wFresh /\ htmlCache w1 = htmlCache wFresh) /\
  (exists ua, In ua USER_AGENTS /\
      trace (fetchHtml env pageUrl true w0).2 = trace w0 ++ [EvFetch (htmlRequest pageUrl ua)]) /\
  (exists w2,
      fetchHtml env pageUrl true (fetchHtml env pageUrl true w0).2
        = (Ok "<html>fresh</html>", w2) /\
      trace w2 = trace (fetchHtml env pageUrl true w0).2 /\
      (~ servedFromCache env pageUrl w0 -> networkCalls w2 = S (networkCalls w0))) /\
  networkCalls (fetchHtml env downUrl true wStale).2 = S (networkCalls wStale).
Proof.
  destruct (fetchHtml_cache_rule env) as (_ & Hhit & Hmiss & Htwice & Hstale).
  split; [| split; [| split]].
  - apply (Hhit pageUrl wFresh (mkEntry "<html>cached</html>" (-1000)));
      [reflexivity | unfold fresh; vm_compute; reflexivity].
  - apply (Hmiss pageUrl true w0), w0_not_served.
  - apply (Htwice pageUrl "<html>fresh</html>" w0); [reflexivity |].
    exists (mkEntry "<html>fresh</html>" 0). split; [reflexivity |].
    unfold fresh. vm_compute. reflexivity.
  - apply (Hstale downUrl wStale (mkEntry "<html>old</html>" (-360000)));
      [reflexivity | vm_compute; discriminate].
Defined.

(** The answer 503 becomes an error with status and status text; the answer
    200 is stored and returned. *)
Lemma fetchHtml_network_outcome_witness :
  (fetchHtml env downUrl true wStale).1 = Throw (mkError "HTTP 503: Service Unavailable") /\
  (exists n,
      clockReads (fetchHtml env pageUrl false wFresh).2 = S n /\
      (fetchHtml env pageUrl false wFresh).1 = Ok "<html>fresh</html>" /\
      htmlCache (fetchHtml env pageUrl false wFresh).2 =
        <[pageUrl := mkEntry "<html>fresh</html>" (clock env n)]> (htmlCache wFresh)).
Proof.
  split.
  - destruct (fetchHtml_network_outcome env downUrl true wStale (wStale_not_served true))
      as (_ & _ & _ & _ & Hbad & _).
    apply (Hbad (mkResponse 503 "Service Unavailable" (Ok "unavailable")));
      [reflexivity | right; reflexivity].
  - destruct (fetchHtml_network_outcome env pageUrl false wFresh) as (_ & _ & _ & _ & _ & Hgood).
    { by intros [[=] _]. }
    apply (Hgood (mkResponse 200 "OK" (Ok "<html>fresh</html>")));
      [reflexivity | split; discriminate | reflexivity].
Defined.

(** The failed refetch of the stale entry leaves the entry where it was. *)
Lemma fetchHtml_failure_keeps_cache_witness :
  htmlCache (fetchHtml env downUrl true wStale).2 = htmlCache wStale /\
  htmlCache wStale !! downUrl = Some (mkEntry "<html>old</html>" (-360000)).
Proof.
  split; [| reflexivity].
  apply (fetchHtml_failure_keeps_cache env downUrl true wStale _
           (mkError "HTTP 503: Service Unavailable")).
  reflexivity.
Defined.

Lemma sample_answered (menuSeq bbsSeq sitecntntsSeq : string) (w : World) :
  answered env menuSeq bbsSeq sitecntntsSeq w listAnswer.
Proof. reflexivity. Qed.

(** C3 as stated fails: a fragment whose two data rows carry the same
    identifier gives two items with that identifier. *)
Lemma parseYngogoList_duplicate_ids :
  exists items,
    (parseListing listingTwice w0).1 = Ok items /\
    List.map uniqId items = ["1005200642"; "1005200642"] /\
    ~ NoDup (List.map uniqId items).
Proof.
  eexists. split; [vm_compute; reflexivity |].
  split; [reflexivity |].
  intros Hnodup. apply NoDup_cons in Hnodup as [Hnotin _].
  apply Hnotin. left.
Qed.

(** On the sample listing the three identifiers are those of the three data
    rows. *)
Lemma parseYngogoList_ids_follow_rows_witness :
  exists items w1,
    parseListing listing w0 = (Ok items, w1) /\
    List.map uniqId items = List.map rowUniqId (List.filter dataRow (tableRows listing)) /\
    (NoDup (List.map uniqId items) <->
     NoDup (List.map rowUniqId (List.filter dataRow (tableRows listing)))).
Proof.
  apply (parseYngogoList_ids_follow_rows env cleanUrlSame getDateInvalid trimSame
           (fun _ => listing) "" "32000001112" "1030" "32000001056" "<html>fresh</html>"
           w0 listAnswer);
    [apply sample_answered | reflexivity].
Defined.

(** The handler of the sample link is found; a handler without a call is
    not. *)
Lemma getUniqId_extraction_witness :
  getUniqId (titleElementOf row3) = "1005200642" /\
  getUniqId
    [Element "a" [("onclick", "return fnView('1005200642', 'admin');")] []] = "1005200642" /\
  getUniqId (titleElementOf rowNoId) = "".
Proof.
  destruct getUniqId_extraction as (Hsample & Hfirst & Hnone).
  split; [| split].
  - by apply Hsample.
  - apply (Hfirst _ "return " "1005200642" ", 'admin');"); [reflexivity | reflexivity |].
    by apply (noMatchBefore_notBefore fnViewPattern fnViewCallAt _ _ fnView_at_iff).
  - apply Hnone.
    by apply (no_occurrence_no_match fnViewPattern fnViewCallAt _ fnView_at_iff).
Defined.

(** The sequence is found behind other text, with a colon and a double quote;
    a text without the parameter gives the empty string. *)
Lemma extractNttSeq_extraction_witness :
  extractNttSeq ("var p = {nttSeq:" +:+ String dquote ("1005200644" +:+ String dquote "};"))
    = "1005200644" /\
  extractNttSeq "location.href = '/subList/32000001112?pmode=detail';" = "".
Proof.
  destruct extractNttSeq_extraction as (_ & _ & _ & Hfirst & Hnone).
  split.
  - apply (Hfirst "var p = {" (String dquote "") "005200644" (String dquote "};")
             ":"%char "1"%char); try reflexivity; auto.
    by apply (noMatchBefore_notBefore nttSeqPattern nttSeqAt _ _ nttSeq_at_iff).
  - apply Hnone.
    by apply (no_occurrence_no_match nttSeqPattern nttSeqAt _ nttSeq_at_iff).
Defined.

(** The sample listing, one header-only row and three data rows, gives three
    items. *)
Lemma parseYngogoList_skips_rows_without_td_witness :
  exists items w1,
    parseListing listing w0 = (Ok items, w1) /\
    List.map uniqId items = ["1005200644"; "1005200643"; "1005200642"] /\
    length items = 3%nat.
Proof.
  destruct (parseYngogoList_skips_rows_without_td env cleanUrlSame getDateInvalid trimSame
              (fun _ => listing) "" "32000001112" "1030" "32000001056" "<html>fresh</html>"
              w0 listAnswer (sample_answered _ _ _ _) eq_refl)
    as (items & w1 & Hrun & _ & _ & Hscenario).
  exists items, w1. split; [exact Hrun |].
  destruct (Hscenario headerRow row1 row2 row3) as [-> Hlen];
    [reflexivity | reflexivity | discriminate | discriminate | discriminate |].
  split; [reflexivity | exact Hlen].
Defined.




(** A target the sample group does not have, on both routes. *)
Lemma unknown_target_is_not_found_witness :
  parseListHandler env registry
    (mkListBody (JStr "academic-society") (JStr "yngogo-news") None false) w0
    = (Ok (ErrorReply 404 "Target not found: yngogo-news"), w0) /\
  parseDetailHandler env registry
    (mkDetailBody (JStr "academic-society") JUndefined (Some pageUrl) false) wFresh
    = (Ok (ErrorReply 404 "Target not found: undefined"), wFresh).
Proof.
  destruct (unknown_target_is_not_found env registry) as [Hlist Hdetail].
  split.
  - apply (Hlist (mkListBody (JStr "academic-society") (JStr "yngogo-news") None false)
             society w0); [reflexivity |].
    intros t [<- | []]. reflexivity.
  - apply (Hdetail (mkDetailBody (JStr "academic-society") JUndefined (Some pageUrl) false)
             society wFresh); [reflexivity |].
    intros t [<- | []]. reflexivity.
Defined.

(** The row without identifier of the sample gives an item with an empty
    identifier and an empty nttSeq value. *)
Lemma parseYngogoList_keeps_rows_without_id_witness :
  exists items w1,
    parseListing listingNoId w0 = (Ok items, w1) /\
    In (itemOf rowNoId) items /\
    uniqId (itemOf rowNoId) = "" /\
    detailUrl (itemOf rowNoId) =
      "http://www.yngogo.or.kr/subList/32000001112?pmode=detail&nttSeq=&bbsSeq="
        +:+ "1030&sitecntntsSeq=32000001056".
Proof.
  destruct (parseYngogoList_keeps_rows_without_id env cleanUrlSame getDateInvalid trimSame
              (fun _ => listingNoId) "" "32000001112" "1030" "32000001056" "<html>fresh</html>"
              w0 listAnswer (sample_answered _ _ _ _) eq_refl)
    as (items & w1 & Hrun & _ & Hrows).
  exists items, w1. split; [exact Hrun |].
  destruct (Hrows rowNoId) as [Hin Hid];
    [vm_compute; right; left; reflexivity | discriminate |].
  split; [exact Hin |]. apply Hid.
  by apply (no_occurrence_no_match fnViewPattern fnViewCallAt _ fnView_at_iff).
Defined.

End Instances.

(** ** The further statements on the sample data *)

Module Instances2.

Import Sample Sample2.

(** Refetching the page leaves the entry of the other address alone. *)
Lemma fetchHtml_other_urls_untouched_witness :
  htmlCache (fetchHtml env pageUrl false wStale).2 !! downUrl = htmlCache wStale !! downUrl.
Proof.
  apply (fetchHtml_other_urls_untouched env pageUrl downUrl false wStale).
  discriminate.
Defined.

(** The page fetched into an empty cache is its one entry afterwards. *)
Lemma fetchHtml_result_is_cached_witness :
  (exists c, htmlCache (fetchHtml env pageUrl true w0).2 !! pageUrl = Some c /\
             html c = "<html>fresh</html>") /\
  dom (htmlCache (fetchHtml env pageUrl true w0).2) = {[pageUrl]} ∪ dom (htmlCache w0) /\
  (size (htmlCache (fetchHtml env pageUrl true w0).2) <= S (size (htmlCache w0)))%nat.
Proof.
  apply (fetchHtml_result_is_cached env pageUrl "<html>fresh</html>" true w0).
  reflexivity.
Defined.

(** The fresh entry is refetched when the cache is switched off, and the new
    page is served from the cache one second later. *)
Lemma fetchHtml_forced_refresh_witness :
  networkCalls (fetchHtml env pageUrl false wFresh).2 = 1%nat /\
  exists w2,
    fetchHtml env pageUrl true (fetchHtml env pageUrl false wFresh).2
      = (Ok "<html>fresh</html>", w2) /\
    trace w2 = trace (fetchHtml env pageUrl false wFresh).2.
Proof.
  destruct (fetchHtml_forced_refresh env pageUrl wFresh) as [Hcalls Hnext].
  split; [exact Hcalls |].
  destruct (Hnext "<html>fresh</html>" (fetchHtml env pageUrl false wFresh).2 eq_refl)
    as [_ Hserved].
  apply Hserved. vm_compute. reflexivity.
Defined.

(** A group the registry does not have, and a request without group. *)
Lemma unknown_group_is_not_found_witness :
  parseListHandler env registry
    (mkListBody (JStr "museums") (JStr "yngogo-notice") None false) w0
    = (Ok (ErrorReply 404 "Group not found: museums"), w0) /\
  parseListHandler env registry (mkListBody JUndefined JUndefined None false) wFresh
    = (Ok (ErrorReply 404 "Group not found: undefined"), wFresh).
Proof.
  destruct (unknown_group_is_not_found env registry) as (Hlist & _ & Hnostr).
  split.
  - apply (Hlist (mkListBody (JStr "museums") (JStr "yngogo-notice") None false) w0).
    intros g [<- | []]. reflexivity.
  - apply (Hnostr (mkListBody JUndefined JUndefined None false) wFresh).
    discriminate.
Defined.

(** The detail route with an empty URL. *)
Lemma detail_url_is_required_witness :
  parseDetailHandler env registry detailBodyNoUrl w0
    = (Ok (ErrorReply 400 "detailUrl is required"), w0).
Proof.
  apply (detail_url_is_required env registry detailBodyNoUrl society noticeTarget w0);
    [reflexivity | reflexivity | by right].
Defined.

(** The address that is down: the reply carries the message of the error. *)
Lemma list_failures_are_reported_witness :
  (parseListHandler env registry listBodyDown w0).1
    = Ok (FailureReply "HTTP 503: Service Unavailable") /\
  htmlCache (parseListHandler env registry listBodyDown w0).2 = htmlCache w0.
Proof.
  destruct (list_failures_are_reported env registry listBodyDown society noticeTarget w0
              eq_refl eq_refl) as [Hfetch _].
  destruct (Hfetch (mkError "HTTP 503: Service Unavailable")
              (fetchHtml env downUrl true (tick w0)).2 eq_refl) as (Hrun & Hcache & _).
  rewrite Hrun. by split.
Defined.

Lemma sample_group_found :
  List.find (fun g => strictEq (group_id g) (groupId listBody)) registry = Some society.
Proof. reflexivity. Qed.

Lemma sample_target_found :
  List.find (fun t => strictEq (target_id t) (targetId listBody)) (targets society)
    = Some noticeTarget.
Proof. reflexivity. Qed.

Lemma sample_parser_keeps_cache (p : string) (w : World) :
  htmlCache (parseList noticeTarget p w).2 = htmlCache w.
Proof.
  change (htmlCache (parseYngogoList env cleanUrlSame getDateInvalid trimSame
                       (fun _ => listing) p "32000001112" "1030" "32000001056" w).2
          = htmlCache w).
  apply parseYngogoList_keeps_cache.
Qed.

(** The page comes from the network and the reply still says cached. *)
Lemma list_reply_cached_flag_witness :
  match parseListHandler env registry listBody w0 with
  | (Ok (ListReply url _ _ timing cached), w1) =>
      cached = true /\ url = pageUrl /\
      t_total timing = t_fetch timing + t_parse timing /\
      networkCalls w1 = 2%nat
  | _ => False
  end.
Proof.
  destruct (parseListHandler env registry listBody w0) as [[reply | e] w1] eqn:Hrun;
    [| vm_compute in Hrun; discriminate].
  destruct reply as [code err | url page items timing cached
                     | url page article timing cached | err];
    try (vm_compute in Hrun; discriminate).
  pose proof (list_reply_cached_flag env registry listBody society noticeTarget
                w0 w1 url page items timing cached
                sample_group_found sample_target_found sample_parser_keeps_cache Hrun)
    as (Hc & Hu & Ht & _).
  split; [exact Hc |]. split; [exact Hu |]. split; [exact Ht |].
  vm_compute in Hrun. by injection Hrun as _ _ _ _ _ <-.
Defined.

(** The identifier of the first sample row, out of its URL. *)
Lemma extractNttSeq_of_detail_url_witness :
  extractNttSeq (rawDetailUrl "32000001112" "1030" "32000001056" "1005200644")
    = "1005200644".
Proof.
  apply (extractNttSeq_of_detail_url "32000001112" "1030" "32000001056" "1005200644");
    [reflexivity | reflexivity | discriminate].
Defined.

(** The error page, answered under status 404, gives no item. *)
Lemma parseYngogoList_without_table_witness :
  (parseYngogoList
     (mkEnv (clock env) (random env)
        (fun _ _ => inr (mkResponse 404 "Not Found" (Ok "<html>error</html>"))))
     cleanUrlSame getDateInvalid trimSame (fun _ => errorPage)
     "" "32000001112" "1030" "32000001056" w0).1 = Ok [].
Proof.
  apply (parseYngogoList_without_table _ cleanUrlSame getDateInvalid trimSame
           (fun _ => errorPage) "" "32000001112" "1030" "32000001056"
           "<html>error</html>" w0 (mkResponse 404 "Not Found" (Ok "<html>error</html>")));
    reflexivity.
Defined.

(** The first item of the sample listing. *)
Lemma parseRows_item_shape_witness :
  detailUrl (itemOf row1) =
    cleanUrlSame (rawDetailUrl "32000001112" "1030" "32000001056" (uniqId (itemOf row1))) /\
  dateType (itemOf row1) = REGISTERED /\
  quoteFree (uniqId (itemOf row1)) = true.
Proof.
  apply (parseRows_item_shape cleanUrlSame getDateInvalid trimSame
           "32000001112" "1030" "32000001056" listing (itemOf row1)).
  vm_compute. by left.
Defined.

End Instances2.
